(** * The SOAP envelope encoder of gowsdl (soap/DefaultEncoder.go)

    A shallow embedding of [DefaultEncoder]: its byte buffer, the reflective
    walk over a struct's fields in [Encode], the envelope protocol of
    [Flush], and the helper [getXMLNameAndNamespace].  Go's [reflect],
    [strings] and [io.Writer] are modelled as far as the encoder observes
    them; a Go panic is an explicit outcome. *)

From Stdlib Require Import Strings.String Strings.Ascii Strings.Byte List ZArith Bool Arith Lia.
From Stdlib Require Import DecimalString.
From Stdlib Require DecimalPos DecimalZ.
Import ListNotations.

Local Open Scope string_scope.
Local Open Scope list_scope.

Set Implicit Arguments.
Set Warnings "-register-all".

(** ** Outcomes of Go calls that may panic *)

Inductive result (A : Type) : Type :=
| Done (a : A)
| Panic (msg : string).

Arguments Done {A} a.
Arguments Panic {A} msg.

Definition rbind {A B : Type} (m : result A) (k : A -> result B) : result B :=
  match m with
  | Done a => k a
  | Panic msg => Panic msg
  end.

Declare Scope result_scope.
Delimit Scope result_scope with result.
Notation "x <- m ;; k" := (rbind m (fun x => k))
  (at level 61, m at next level, right associativity) : result_scope.
Notation "' p <- m ;; k" := (rbind m (fun p => k))
  (at level 61, p pattern, m at next level, right associativity) : result_scope.

(** Go's [error] interface, as far as it is observed: the message. *)
Definition error := string.

(** ** package strings *)

Module strings.

(** [strings.HasPrefix]. *)
Fixpoint HasPrefix (s prefix : string) : bool :=
  match prefix, s with
  | EmptyString, _ => true
  | String _ _, EmptyString => false
  | String p prefix', String c s' => Ascii.eqb c p && HasPrefix s' prefix'
  end.

(** [strings.Index]: the byte offset of the first instance of [substr] in
    [s]; Go's -1 is [None]. *)
Fixpoint Index (s substr : string) : option nat :=
  if HasPrefix s substr then Some 0
  else match s with
       | EmptyString => None
       | String _ s' => option_map S (Index s' substr)
       end.

(** [strings.Contains(s, substr)] is [Index(s, substr) >= 0]. *)
Definition Contains (s substr : string) : bool :=
  match Index s substr with
  | Some _ => true
  | None => false
  end.

(** [s[n:]]. *)
Fixpoint from (n : nat) (s : string) : string :=
  match n, s with
  | O, _ => s
  | S n', String _ s' => from n' s'
  | S _, EmptyString => EmptyString
  end.

(** The loop of [genSplit]: cut at each instance of a non-empty [sep],
    left to right; [n] bounds the number of cuts. *)
Fixpoint genSplit (n : nat) (s sep : string) : list string :=
  match n with
  | O => [s]
  | S n' =>
      match Index s sep with
      | None => [s]
      | Some m => substring 0 m s :: genSplit n' (from (m + String.length sep) s) sep
      end
  end.

(** [strings.Split(s, sep)] for a non-empty separator.  Go bounds the
    loop by [Count(s, sep)], which never exceeds [len(s)].  (An empty
    separator explodes [s] into UTF-8 sequences; the encoder never passes
    one, and bytes stand in for them here.) *)
Definition Split (s sep : string) : list string :=
  match sep with
  | EmptyString => map (fun c => String c EmptyString) (list_ascii_of_string s)
  | _ => genSplit (String.length s) s sep
  end.

End strings.

(** ** package reflect *)

Module reflect.

Inductive SignedKind := Int | Int8 | Int16 | Int32 | Int64.

(** The kinds the encoder only ever formats through [%v]. *)
Inductive OtherKind :=
| Bool | Uint | Uint8 | Uint16 | Uint32 | Uint64 | Uintptr
| Float32 | Float64 | Complex64 | Complex128
| Array | Chan | Func | Interface | Map | Slice | UnsafePointer.

(** [reflect.Kind], grouped as the encoder tells kinds apart. *)
Inductive Kind :=
| Invalid
| Signed (k : SignedKind)
| String_
| Ptr
| Struct
| Other (k : OtherKind).

Definition Kind_eqb (a b : Kind) : bool :=
  match a, b with
  | Invalid, Invalid | String_, String_ | Ptr, Ptr | Struct, Struct => true
  | Signed x, Signed y =>
      match x, y with
      | Int, Int | Int8, Int8 | Int16, Int16 | Int32, Int32 | Int64, Int64 => true
      | _, _ => false
      end
  | Other x, Other y =>
      match x, y with
      | Bool, Bool | Uint, Uint | Uint8, Uint8 | Uint16, Uint16
      | Uint32, Uint32 | Uint64, Uint64 | Uintptr, Uintptr
      | Float32, Float32 | Float64, Float64
      | Complex64, Complex64 | Complex128, Complex128
      | Array, Array | Chan, Chan | Func, Func | Interface, Interface
      | Map, Map | Slice, Slice | UnsafePointer, UnsafePointer => true
      | _, _ => false
      end
  | _, _ => false
  end.

(** [reflect.StructTag], read as its conventional [key:"value"] pairs. *)
Definition StructTag := list (string * string).

(** [StructTag.Get]: the value of the first pair with that key, or the
    empty string. *)
Fixpoint Get (tag : StructTag) (key : string) : string :=
  match tag with
  | [] => EmptyString
  | (k, v) :: tag' => if String.eqb k key then v else Get tag' key
  end.

(** [reflect.StructField]: [PkgPath] is empty exactly for exported
    fields. *)
Record StructField := mkStructField {
  Name : string;
  PkgPath : string;
  Tag : StructTag
}.

Definition IsExported (f : StructField) : bool := String.eqb (PkgPath f) EmptyString.

(** A Go value as reflection sees it.  A value of another kind carries
    what [IsZero] reports for it. *)
Inductive GoValue :=
| VSigned (k : SignedKind) (n : Z)
| VString (s : string)
| VPtr (target : option GoValue)
| VStruct (fields : list (StructField * GoValue))
| VOther (k : OtherKind) (zero : bool).

(** An [interface{}] argument: [None] is the nil interface. *)
Definition interface := option GoValue.

(** [reflect.Value]: [None] is the zero Value; [flagRO] marks a Value
    reached through an unexported field. *)
Record Value := mkValue {
  content : option GoValue;
  flagRO : bool
}.

(** [reflect.Type], as far as [Field] needs it. *)
Inductive rtype :=
| StructType (fields : list StructField)
| OtherType (k : Kind).

Definition ValueOf (v : interface) : Value := mkValue v false.

Definition kindOf (g : GoValue) : Kind :=
  match g with
  | VSigned k _ => Signed k
  | VString _ => String_
  | VPtr _ => Ptr
  | VStruct _ => Struct
  | VOther k _ => Other k
  end.

Definition Kind_ (v : Value) : Kind :=
  match content v with
  | None => Invalid
  | Some g => kindOf g
  end.

(** [Value.Elem] on a pointer: a nil pointer yields the zero Value.  (On
    an interface-kind Value Go unwraps it; [ValueOf] never yields one and
    the encoder calls [Elem] on pointers only.) *)
Definition Elem (v : Value) : result Value :=
  match content v with
  | Some (VPtr target) => Done (mkValue target (flagRO v))
  | _ => Panic "reflect: call of reflect.Value.Elem on non-pointer Value"
  end.

Definition Type_ (v : Value) : result rtype :=
  match content v with
  | None => Panic "reflect: call of reflect.Value.Type on zero Value"
  | Some (VStruct fields) => Done (StructType (map fst fields))
  | Some g => Done (OtherType (kindOf g))
  end.

Definition NumField (v : Value) : result nat :=
  match content v with
  | Some (VStruct fields) => Done (List.length fields)
  | _ => Panic "reflect: call of reflect.Value.NumField on non-struct Value"
  end.

(** [Value.Field(i)]: the i-th field's value, read-only when the field is
    unexported. *)
Definition Field (v : Value) (i : nat) : result Value :=
  match content v with
  | Some (VStruct fields) =>
      match nth_error fields i with
      | Some (sf, x) => Done (mkValue (Some x) (flagRO v || negb (IsExported sf)))
      | None => Panic "reflect: Field index out of range"
      end
  | _ => Panic "reflect: call of reflect.Value.Field on non-struct Value"
  end.

(** [Type.Field(i)]. *)
Definition TypeField (t : rtype) (i : nat) : result StructField :=
  match t with
  | StructType fields =>
      match nth_error fields i with
      | Some sf => Done sf
      | None => Panic "reflect: Field index out of bounds"
      end
  | OtherType _ => Panic "reflect: Field of non-struct type"
  end.

Fixpoint isZero (g : GoValue) : bool :=
  match g with
  | VSigned _ n => Z.eqb n 0
  | VString s => Nat.eqb (String.length s) 0
  | VPtr target => match target with None => true | Some _ => false end
  | VStruct fields => forallb (fun f => isZero (snd f)) fields
  | VOther _ zero => zero
  end.

Definition IsZero (v : Value) : result bool :=
  match content v with
  | None => Panic "reflect: call of reflect.Value.IsZero on zero Value"
  | Some g => Done (isZero g)
  end.

Definition Int_ (v : Value) : result Z :=
  match content v with
  | Some (VSigned _ n) => Done n
  | _ => Panic "reflect: call of reflect.Value.Int on non-int Value"
  end.

(** [Value.String] of a string Value.  (For other kinds Go returns a
    placeholder naming the type; the encoder calls it on strings only.) *)
Definition String_of (v : Value) : string :=
  match content v with
  | Some (VString s) => s
  | _ => "<invalid Value>"
  end.

(** [Value.Interface] panics on a Value reached through an unexported
    field. *)
Definition Interface_ (v : Value) : result GoValue :=
  match content v with
  | None => Panic "reflect: call of reflect.Value.Interface on zero Value"
  | Some g =>
      if flagRO v
      then Panic "reflect.Value.Interface: cannot return value obtained from unexported field or method"
      else Done g
  end.

End reflect.

(** ** package fmt *)

Module fmt.

(** The verb [%v] on a value of any kind.  Its text for floats, slices,
    maps, pointers and nested structs is fmt's business; the encoder only
    passes it on, so it is an interface here. *)
Class Verbs := { Sprintf_v : reflect.GoValue -> string }.

(** [fmt.Sprintf("%d", n)] for an [int64]. *)
Definition Sprintf_d (n : Z) : string := NilZero.string_of_int (Z.to_int n).

(** [fmt.Errorf] with a constant format. *)
Definition Errorf (msg : string) : error := msg.

End fmt.

(** ** package io *)

Module io.

(** [io.Writer]: [Write(p)] returns the byte count and an error, and may
    change the writer. *)
Class Writer (W : Type) := { Write : W -> list byte -> W * (Z * option error) }.

End io.

(** ** package soap *)

Definition quote : string := String "034"%char EmptyString.
Definition newline : string := String "010"%char EmptyString.

(** [[]byte(s)]. *)
Definition bytes (s : string) : list byte := list_byte_of_string s.

(** SOAPEnvelopeStart represents the opening part of a SOAP envelope. *)
Definition SOAPEnvelopeStart : string :=
  "<?xml version=" ++ quote ++ "1.0" ++ quote ++ " encoding=" ++ quote ++ "utf-8" ++ quote ++ "?>" ++ newline ++
  "<soap:Envelope xmlns:soap=" ++ quote ++ "http://schemas.xmlsoap.org/soap/envelope/" ++ quote ++ ">" ++ newline ++
  "  <soap:Body>" ++ newline.

(** SOAPEnvelopeEnd represents the closing part of a SOAP envelope. *)
Definition SOAPEnvelopeEnd : string :=
  "  </soap:Body>" ++ newline ++
  "</soap:Envelope>".

(** DefaultEncoder implements the SOAPEncoder interface. *)
Record DefaultEncoder (W : Type) := mkEncoder {
  writer : W;
  buffer : list byte
}.

Arguments mkEncoder {W} writer buffer.

(** NewEncoder creates a new SOAP encoder that writes to the specified
    writer. *)
Definition NewEncoder {W : Type} (w : W) : DefaultEncoder W :=
  mkEncoder w [].

(** A method of the encoder: it may change the encoder, and it returns or
    panics.  The encoder is kept as the panic left it. *)
Definition method (W A : Type) : Type :=
  DefaultEncoder W -> result A * DefaultEncoder W.

Definition ret {W A : Type} (a : A) : method W A := fun e => (Done a, e).

Definition bind {W A B : Type} (m : method W A) (k : A -> method W B) : method W B :=
  fun e =>
    match m e with
    | (Done a, e') => k a e'
    | (Panic msg, e') => (Panic msg, e')
    end.

Definition lift {W A : Type} (r : result A) : method W A := fun e => (r, e).

Definition getBuffer {W : Type} : method W (list byte) := fun e => (Done (buffer e), e).

(** [e.buffer = append(e.buffer, bs...)]. *)
Definition appendBuffer {W : Type} (bs : list byte) : method W unit :=
  fun e => (Done tt, mkEncoder (writer e) (buffer e ++ bs)).

Declare Scope method_scope.
Delimit Scope method_scope with method.
Notation "x <- m ;; k" := (bind m (fun x => k))
  (at level 61, m at next level, right associativity) : method_scope.
Notation "' p <- m ;; k" := (bind m (fun p => k))
  (at level 61, p pattern, m at next level, right associativity) : method_scope.
Notation "m ;;; k" := (bind m (fun _ => k))
  (at level 61, right associativity) : method_scope.

(** [parts[i]] on a slice of strings. *)
Definition at_ (parts : list string) (i : nat) : result string :=
  match nth_error parts i with
  | Some p => Done p
  | None => Panic "runtime error: index out of range"
  end.

(** The loop of getXMLNameAndNamespace from index [i], with [n] fields
    left ([val.NumField()] is the same at every turn, so it is read once,
    before the loop). *)
Fixpoint scanXMLName (typ : reflect.rtype) (i n : nat) : result (string * string) :=
  match n with
  | O => Done (EmptyString, EmptyString)
  | S n' =>
      (field <- reflect.TypeField typ i ;;
       if String.eqb (reflect.Name field) "XMLName" then
         (* Extract namespace and element name from the xml tag *)
         let xmlTag := reflect.Get (reflect.Tag field) "xml" in
         let parts := strings.Split xmlTag " " in
         if Nat.eqb (List.length parts) 2 then
           (name <- at_ parts 1 ;; ns <- at_ parts 0 ;; Done (name, ns))
         else Done (reflect.Name field, EmptyString)
       else scanXMLName typ (S i) n')%result
  end.

(** getXMLNameAndNamespace extracts the XML element name and namespace from
    the XMLName field. *)
Definition getXMLNameAndNamespace (val : reflect.Value) : result (string * string) :=
  (typ <- reflect.Type_ val ;;
   n <- reflect.NumField val ;;
   scanXMLName typ 0 n)%result.

Section Encode.

Context {W : Type} {verbs : fmt.Verbs}.

(** Format the field value. *)
Definition formatField (field : reflect.Value) : result string :=
  match reflect.Kind_ field with
  | reflect.Signed _ => (n <- reflect.Int_ field ;; Done (fmt.Sprintf_d n))%result
  | reflect.String_ => Done (reflect.String_of field)
  | _ => (x <- reflect.Interface_ field ;; Done (fmt.Sprintf_v x))%result
  end.

(** One turn of the field loop of Encode, at index [i]. *)
Definition encodeField (val : reflect.Value) (typ : reflect.rtype) (i : nat)
  : method W unit :=
  (field <- lift (reflect.Field val i) ;;
   fieldType <- lift (reflect.TypeField typ i) ;;
   (* Skip XMLName field *)
   if String.eqb (reflect.Name fieldType) "XMLName" then ret tt else
   (* Get the XML tag name *)
   let xmlTag := reflect.Get (reflect.Tag fieldType) "xml" in
   let parts := strings.Split xmlTag "," in
   fieldName <- lift (at_ parts 0) ;;
   (* Skip if field is empty and omitempty is specified *)
   zero <- lift (reflect.IsZero field) ;;
   if zero && strings.Contains xmlTag "omitempty" then ret tt else
   fieldValue <- lift (formatField field) ;;
   (* Add the field with empty namespace *)
   let fieldXML :=
     (newline ++ "      <" ++ fieldName ++ " xmlns=" ++ quote ++ quote ++ ">"
              ++ fieldValue ++ "</" ++ fieldName ++ ">")%string in
   appendBuffer (bytes fieldXML))%method.

(** The field loop of Encode from index [i], with [n] fields left; a
    [continue] is a turn that returns at once. *)
Fixpoint fieldLoop (val : reflect.Value) (typ : reflect.rtype) (i n : nat)
  : method W unit :=
  match n with
  | O => ret tt
  | S n' => (encodeField val typ i ;;; fieldLoop val typ (S i) n')%method
  end.

(** Encode converts a Go struct to SOAP XML format and adds it to the
    buffer. *)
Definition Encode (v : reflect.interface) : method W (option error) :=
  (let val := reflect.ValueOf v in
   val <- lift (if reflect.Kind_eqb (reflect.Kind_ val) reflect.Ptr
                then reflect.Elem val else Done val) ;;
   (* Check if the struct has XMLName field *)
   ' (xmlName, namespace) <- lift (getXMLNameAndNamespace val) ;;
   if String.eqb xmlName EmptyString then
     ret (Some (fmt.Errorf "struct must have XMLName field"))
   else
     (* Start with the envelope *)
     buf <- getBuffer ;;
     (if Nat.eqb (List.length buf) 0
      then appendBuffer (bytes SOAPEnvelopeStart) else ret tt) ;;;
     (* Create the root element with namespace *)
     let rootStart :=
       ("    <" ++ xmlName ++ " xmlns=" ++ quote ++ namespace ++ quote ++ ">")%string in
     appendBuffer (bytes rootStart) ;;;
     (* Process all fields except XMLName *)
     typ <- lift (reflect.Type_ val) ;;
     n <- lift (reflect.NumField val) ;;
     fieldLoop val typ 0 n ;;;
     (* Close the root element *)
     let rootEnd := (newline ++ "    </" ++ xmlName ++ ">")%string in
     appendBuffer (bytes rootEnd) ;;;
     ret None)%method.

End Encode.

Section Flush.

Context {W : Type} {sink : io.Writer W}.

(** Flush writes the buffered XML to the writer and clears the buffer. *)
Definition Flush : method W (option error) :=
  fun e =>
    if Nat.ltb 0 (List.length (buffer e)) then
      (* Add the envelope end *)
      let buf := buffer e ++ bytes (newline ++ SOAPEnvelopeEnd)%string in
      (* Write to the output *)
      let '(w, (_, err)) := io.Write (writer e) buf in
      match err with
      | Some err => (Done (Some err), mkEncoder w buf)
      | None =>
          (* Clear the buffer *)
          (Done None, mkEncoder w [])
      end
    else (Done None, e).

End Flush.

(** ** The encoder over a struct's field list

    What the index loops of [Encode] and [getXMLNameAndNamespace] compute,
    written over the list of fields; the refinement lemmas below relate the
    two. *)

Section FieldList.

Import reflect.

Context {W : Type} {verbs : fmt.Verbs}.

Definition field : Type := StructField * GoValue.

(** A record: a struct, or a pointer to one. *)
Definition structOf (v : interface) : option (list field) :=
  match v with
  | Some (VStruct fs) => Some fs
  | Some (VPtr (Some (VStruct fs))) => Some fs
  | _ => None
  end.

Definition isXMLName (f : field) : bool := String.eqb (Name (fst f)) "XMLName".

Definition xmlTag (sf : StructField) : string := Get (Tag sf) "xml".

(** The root name and namespace read off the first field named XMLName. *)
Definition rootName (fs : list field) : string * string :=
  match find isXMLName fs with
  | Some (sf, _) =>
      let parts := strings.Split (xmlTag sf) " " in
      if Nat.eqb (List.length parts) 2
      then (nth 1 parts EmptyString, nth 0 parts EmptyString)
      else (Name sf, EmptyString)
  | None => (EmptyString, EmptyString)
  end.

(** The element name of a field: the first comma-separated segment of its
    tag. *)
Definition elementName (sf : StructField) : string :=
  hd EmptyString (strings.Split (xmlTag sf) ",").

(** A zero value under a tag that mentions omitempty. *)
Definition omitted (f : field) : bool :=
  isZero (snd f) && strings.Contains (xmlTag (fst f)) "omitempty".

(** The text of a field's value. *)
Definition rendered (x : GoValue) : string :=
  match x with
  | VSigned _ n => fmt.Sprintf_d n
  | VString s => s
  | _ => fmt.Sprintf_v x
  end.

Definition fieldElement (f : field) : string :=
  newline ++ "      <" ++ elementName (fst f) ++ " xmlns=" ++ quote ++ quote ++ ">"
          ++ rendered (snd f) ++ "</" ++ elementName (fst f) ++ ">".

(** The fields that yield an element, in declaration order. *)
Definition emitted (fs : list field) : list field :=
  filter (fun f => negb (isXMLName f) && negb (omitted f)) fs.

(** A field the encoder can format: signed integers and strings are read
    directly, any other kind goes through [Interface], which needs an
    exported field. *)
Definition printable (f : field) : bool :=
  match snd f with
  | VSigned _ _ | VString _ => true
  | _ => IsExported (fst f)
  end.

Definition fieldsXML (fs : list field) : list byte :=
  concat (map (fun f => bytes (fieldElement f)) (emitted fs)).

Definition rootStart (N U : string) : string :=
  "    <" ++ N ++ " xmlns=" ++ quote ++ U ++ quote ++ ">".

Definition rootEnd (N : string) : string :=
  newline ++ "    </" ++ N ++ ">".

(** One root block: [<N xmlns="U">], the field elements, [</N>]. *)
Definition rootElement (N U : string) (fs : list field) : list byte :=
  bytes (rootStart N U) ++ fieldsXML fs ++ bytes (rootEnd N).

(** The buffer once the envelope is open. *)
Definition started (buf : list byte) : list byte :=
  if Nat.eqb (List.length buf) 0 then bytes SOAPEnvelopeStart else buf.

Definition envelopeEnd : list byte := bytes (newline ++ SOAPEnvelopeEnd).

(** The field loop's turn for the field [f]. *)
Definition encodeOne (f : field) : method W unit :=
  if isXMLName f then ret tt
  else if omitted f then ret tt
  else
    match formatField (mkValue (Some (snd f)) (negb (IsExported (fst f)))) with
    | Done fieldValue =>
        appendBuffer
          (bytes (newline ++ "      <" ++ elementName (fst f) ++ " xmlns=" ++ quote ++ quote ++ ">"
                          ++ fieldValue ++ "</" ++ elementName (fst f) ++ ">"))
    | Panic msg => lift (Panic msg)
    end.

Fixpoint encodeFields (fs : list field) : method W unit :=
  match fs with
  | [] => ret tt
  | f :: fs' => (encodeOne f ;;; encodeFields fs')%method
  end.

Definition MissingRootName : error := fmt.Errorf "struct must have XMLName field".

(** [Encode] on a struct with the fields [fs]. *)
Definition encodeStruct (fs : list field) : method W (option error) :=
  fun e =>
    let '(N, U) := rootName fs in
    if String.eqb N EmptyString then (Done (Some MissingRootName), e)
    else
      match encodeFields fs
              (mkEncoder (writer e) (started (buffer e) ++ bytes (rootStart N U))) with
      | (Done _, e') => (Done None, mkEncoder (writer e') (buffer e' ++ bytes (rootEnd N)))
      | (Panic msg, e') => (Panic msg, e')
      end.

(** A valid record for root name [N] and namespace [U]: a struct (or a
    pointer to one) whose XMLName tag splits on a space into [U] and a
    non-empty [N], and whose emitted fields can all be formatted. *)
Record validRecord (v : interface) (fs : list field) (N U : string) : Prop := {
  valid_struct : structOf v = Some fs;
  valid_root : exists sf x, find isXMLName fs = Some (sf, x)
                            /\ strings.Split (xmlTag sf) " " = [U; N];
  valid_name : N <> EmptyString;
  valid_fields : forallb printable (emitted fs) = true
}.

End FieldList.

(** ** Sinks, formatters and records used in the examples *)

(** A sink that records every payload handed to [Write] and fails the
    writes its script names; past the script every write succeeds. *)
Record Pipe := mkPipe {
  script : list (option error);
  calls : list (list byte)
}.

#[export] Instance Pipe_Writer : io.Writer Pipe := {|
  io.Write w p :=
    match script w with
    | Some err :: rest => (mkPipe rest (calls w ++ [p]), (0%Z, Some err))
    | None :: rest => (mkPipe rest (calls w ++ [p]), (Z.of_nat (List.length p), None))
    | [] => (mkPipe [] (calls w ++ [p]), (Z.of_nat (List.length p), None))
    end
|}.

(** [%v] on booleans, integers and strings; a placeholder elsewhere. *)
#[export] Instance plainVerbs : fmt.Verbs := {|
  fmt.Sprintf_v g :=
    match g with
    | reflect.VSigned _ n => fmt.Sprintf_d n
    | reflect.VString s => s
    | reflect.VOther reflect.Bool zero => if zero then "false" else "true"
    | _ => "?"
    end
|}.

Definition exported (name tag : string) : reflect.StructField :=
  reflect.mkStructField name EmptyString [("xml", tag)].

Definition unexported (name tag : string) : reflect.StructField :=
  reflect.mkStructField name "main" [("xml", tag)].

(** The zero [xml.Name], the usual type of the XMLName field. *)
Definition xmlName : reflect.GoValue :=
  reflect.VStruct
    [ (reflect.mkStructField "Space" EmptyString [], reflect.VString EmptyString);
      (reflect.mkStructField "Local" EmptyString [], reflect.VString EmptyString) ].

(** [struct { XMLName xml.Name `xml:"urn:example Person"`; Name string
    `xml:"Name"`; Age int `xml:"Age,omitempty"` }]. *)
Definition person (name : string) (age : Z) : reflect.GoValue :=
  reflect.VStruct
    [ (exported "XMLName" "urn:example Person", xmlName);
      (exported "Name" "Name", reflect.VString name);
      (exported "Age" "Age,omitempty", reflect.VSigned reflect.Int age) ].

(** The same record with the XMLName tag lacking a namespace. *)
Definition bareRoot : reflect.GoValue :=
  reflect.VStruct
    [ (exported "XMLName" "Person", xmlName);
      (exported "Name" "Name", reflect.VString "Alice") ].

(** A record with no XMLName field. *)
Definition anonymous : reflect.GoValue :=
  reflect.VStruct [ (exported "Name" "Name", reflect.VString "Alice") ].

(** ** Sequences of calls on one encoder *)

(** The number of bytes of [s] equal to [c]. *)
Fixpoint countByte (c : ascii) (s : string) : nat :=
  match s with
  | EmptyString => 0
  | String a s' => (if Ascii.eqb a c then 1 else 0) + countByte c s'
  end.

(** A call a user makes on an encoder. *)
Inductive call :=
| CallEncode (v : reflect.interface)
| CallFlush.

Section Calls.

Context {W : Type} {verbs : fmt.Verbs} {sink : io.Writer W}.

(** The encoder after one call, whatever the call returned (a caller that
    recovers from a panic goes on with the encoder as the panic left it). *)
Definition step (e : DefaultEncoder W) (c : call) : DefaultEncoder W :=
  match c with
  | CallEncode v => snd (Encode v e)
  | CallFlush => snd (Flush e)
  end.

(** The encoder after a sequence of calls, first call first. *)
Definition run (calls : list call) (e : DefaultEncoder W) : DefaultEncoder W :=
  fold_left step calls e.

End Calls.

(** A record under its field list, root name and namespace. *)
Record described := mkDescribed {
  d_value : reflect.interface;
  d_fields : list field;
  d_name : string;
  d_space : string
}.

Definition d_block {verbs : fmt.Verbs} (d : described) : list byte :=
  rootElement (d_name d) (d_space d) (d_fields d).

(** A record with a boolean field [ok] that is not exported. *)
Definition guarded (name : string) (ok : bool) : reflect.GoValue :=
  reflect.VStruct
    [ (exported "XMLName" "urn:example Person", xmlName);
      (exported "Name" "Name", reflect.VString name);
      (unexported "ok" "ok", reflect.VOther reflect.Bool (negb ok));
      (exported "Age" "Age", reflect.VSigned reflect.Int 30) ].

(** ** Arguments that never reach fmt's [%v]

    [%v] is a pure text in this development.  In Go it runs the value's own
    [String], [Error] or [Format] method, which is user code and may even
    call back into the encoder; statements that range over every argument
    are therefore made for the arguments none of whose fields is handed to
    [%v]. *)

(** A value the field loop reads with [Int] or [String]. *)
Definition readDirectly (x : reflect.GoValue) : bool :=
  match x with
  | reflect.VSigned _ _ | reflect.VString _ => true
  | _ => false
  end.

(** No field of the argument is handed to [%v]: every emitted field is a
    signed integer or a string, or is unexported, so that [Interface]
    panics before fmt is called.  An argument that is no record has no
    field at all. *)
Definition avoidsVerbV (v : reflect.interface) : bool :=
  match structOf v with
  | Some fs =>
      forallb (fun f => readDirectly (snd f) || negb (reflect.IsExported (fst f)))
              (emitted fs)
  | None => true
  end.

Definition callAvoidsVerbV (c : call) : bool :=
  match c with
  | CallEncode v => avoidsVerbV v
  | CallFlush => true
  end.

(** Validity of a concrete record, by evaluation. *)
Ltac valid_record :=
  constructor;
  [ reflexivity
  | eexists _, _; split; reflexivity
  | discriminate
  | reflexivity ].

(** ** package strings and byte conversion: basic facts *)

Lemma bytes_app (a b : string) : bytes (a ++ b) = bytes a ++ bytes b.
Proof.
  unfold bytes, list_byte_of_string.
  induction a as [|c a IH]; simpl; [reflexivity|].
  now rewrite IH.
Qed.

Lemma genSplit_cons (n : nat) (s sep : string) :
  exists p ps, strings.genSplit n s sep = p :: ps.
Proof.
  destruct n; simpl; [now eexists _, _|].
  destruct (strings.Index s sep); now eexists _, _.
Qed.

(** [strings.Split] with a one-byte separator always yields a first part,
    so [parts[0]] cannot panic. *)
Lemma Split_at_0 (s : string) (c : ascii) :
  at_ (strings.Split s (String c EmptyString)) 0
  = Done (hd EmptyString (strings.Split s (String c EmptyString))).
Proof.
  unfold strings.Split.
  destruct (genSplit_cons (String.length s) s (String c EmptyString)) as (p & ps & E).
  now rewrite E.
Qed.

Lemma at_two (parts : list string) :
  List.length parts = 2 ->
  at_ parts 1 = Done (nth 1 parts EmptyString)
  /\ at_ parts 0 = Done (nth 0 parts EmptyString).
Proof.
  destruct parts as [|a [|b [|c parts]]]; simpl; try discriminate.
  now split.
Qed.

(** *** The bound on the loop of [genSplit] is never reached *)

Lemma HasPrefix_length (s prefix : string) :
  strings.HasPrefix s prefix = true -> String.length prefix <= String.length s.
Proof.
  revert s. induction prefix as [|p prefix IH]; intros s H; cbn; [lia|].
  destruct s as [|c s]; cbn in H; [discriminate|].
  apply andb_true_iff in H as [_ H]. apply IH in H. cbn. lia.
Qed.

Lemma Index_bound (s sep : string) (m : nat) :
  strings.Index s sep = Some m -> m + String.length sep <= String.length s.
Proof.
  revert m. induction s as [|c s IH]; intros m; cbn [strings.Index].
  - destruct (strings.HasPrefix EmptyString sep) eqn:P; [|discriminate].
    intros [= <-]. now apply HasPrefix_length in P.
  - destruct (strings.HasPrefix (String c s) sep) eqn:P.
    + intros [= <-]. now apply HasPrefix_length in P.
    + destruct (strings.Index s sep) as [k|]; [|discriminate].
      intros [= <-]. specialize (IH k eq_refl). cbn. lia.
Qed.

Lemma from_length (n : nat) (s : string) :
  String.length (strings.from n s) = String.length s - n.
Proof.
  revert s. induction n as [|n IH]; intros s; cbn; [lia|].
  destruct s as [|c s]; cbn; [reflexivity | apply IH].
Qed.

(** Any bound of at least [len(s)] gives the same parts: the loop stops by
    itself, for want of a further separator. *)
Lemma genSplit_fuel (sep : string) (n m : nat) (s : string) :
  sep <> EmptyString ->
  String.length s <= n -> String.length s <= m ->
  strings.genSplit n s sep = strings.genSplit m s sep.
Proof.
  intros NE. revert m s.
  induction n as [|n IH]; intros m s Hn Hm.
  - destruct s; [|cbn in Hn; lia].
    destruct m; cbn [strings.genSplit]; [reflexivity|].
    destruct (strings.Index EmptyString sep) as [k|] eqn:I; [|reflexivity].
    apply Index_bound in I. destruct sep; [contradiction | cbn in I; lia].
  - cbn [strings.genSplit].
    destruct (strings.Index s sep) as [k|] eqn:I.
    + pose proof (Index_bound _ _ I) as B.
      assert (0 < String.length sep) by (destruct sep; [contradiction | cbn; lia]).
      destruct m as [|m]; [lia|].
      cbn [strings.genSplit]. rewrite I. f_equal.
      apply IH; rewrite from_length; lia.
    + destruct m; cbn [strings.genSplit]; [reflexivity | now rewrite I].
Qed.

(** *** A tag of the form [U N] splits into namespace and name *)

Lemma HasPrefix_empty (s : string) : strings.HasPrefix s EmptyString = true.
Proof. now destruct s. Qed.

Lemma Index_separator (c : ascii) (U rest : string) :
  strings.Index U (String c EmptyString) = None ->
  strings.Index (U ++ String c rest) (String c EmptyString)
  = Some (String.length U).
Proof.
  induction U as [|a U IH]; cbn [String.append strings.Index strings.HasPrefix].
  - intros _. now rewrite Ascii.eqb_refl, HasPrefix_empty.
  - rewrite !HasPrefix_empty, !andb_true_r.
    destruct (Ascii.eqb a c); [discriminate|].
    destruct (strings.Index U (String c EmptyString)); [discriminate|].
    intros _. now rewrite IH.
Qed.

Lemma substring_prefix (U rest : string) :
  substring 0 (String.length U) (U ++ rest) = U.
Proof.
  induction U as [|a U IH]; cbn; [now destruct rest | now rewrite IH].
Qed.

Lemma from_suffix (c : ascii) (U rest : string) :
  strings.from (String.length U + 1) (U ++ String c rest) = rest.
Proof.
  induction U as [|a U IH]; cbn; [reflexivity | exact IH].
Qed.

(** A metadata string [U N], with no space inside [U] or [N], splits on a
    space into exactly the namespace and the local name. *)
Lemma Split_namespace_name (U N : string) :
  strings.Contains U " " = false ->
  strings.Contains N " " = false ->
  strings.Split (U ++ " " ++ N) " " = [U; N].
Proof.
  unfold strings.Contains, strings.Split. intros HU HN.
  destruct (strings.Index U " ") eqn:IU; [discriminate|].
  destruct (strings.Index N " ") eqn:IN; [discriminate|].
  change (U ++ " " ++ N)%string with (U ++ String " " N)%string.
  destruct (String.length (U ++ String " " N)) as [|n] eqn:L.
  - exfalso. pose proof (Index_bound _ _ (Index_separator " " U N IU)) as B.
    cbn in B. lia.
  - cbn [strings.genSplit]. rewrite (Index_separator " " U N IU).
    rewrite substring_prefix.
    change (String.length " ") with 1. rewrite from_suffix.
    destruct n; cbn [strings.genSplit]; [reflexivity | now rewrite IN].
Qed.

(** ** The index loops refine the traversal of the field list *)

Section Refinement.

Import reflect.

Context {W : Type} {verbs : fmt.Verbs}.

Lemma nth_error_middle {A : Type} (pre : list A) (x : A) (post : list A) :
  nth_error (pre ++ x :: post) (List.length pre) = Some x.
Proof.
  induction pre as [|p pre IH]; simpl; [reflexivity | exact IH].
Qed.

Lemma nth_error_map_middle {A B : Type} (g : A -> B) (pre : list A) (x : A)
      (post : list A) :
  nth_error (map g (pre ++ x :: post)) (List.length pre) = Some (g x).
Proof.
  induction pre as [|p pre IH]; simpl; [reflexivity | exact IH].
Qed.

Lemma scanXMLName_fields (fs pre : list field) :
  scanXMLName (StructType (map fst (pre ++ fs))) (List.length pre) (List.length fs)
  = Done (rootName fs).
Proof.
  revert pre.
  induction fs as [|f fs IH]; intros pre; [reflexivity|].
  cbn [List.length scanXMLName TypeField].
  rewrite nth_error_map_middle. cbn [rbind].
  unfold rootName. cbn [find]. unfold isXMLName at 1.
  destruct f as [sf x]. cbn [fst].
  destruct (String.eqb (Name sf) "XMLName") eqn:E.
  - fold (xmlTag sf).
    destruct (Nat.eqb (List.length (strings.Split (xmlTag sf) " ")) 2) eqn:L;
      [|reflexivity].
    apply Nat.eqb_eq in L.
    destruct (at_two _ L) as [E1 E0].
    rewrite E1, E0. reflexivity.
  - specialize (IH (pre ++ [(sf, x)])).
    rewrite <- app_assoc in IH. cbn [app] in IH.
    rewrite length_app in IH. cbn [List.length] in IH.
    rewrite Nat.add_1_r in IH.
    exact IH.
Qed.

Lemma getXMLNameAndNamespace_struct (fs : list field) (ro : bool) :
  getXMLNameAndNamespace (mkValue (Some (VStruct fs)) ro) = Done (rootName fs).
Proof.
  unfold getXMLNameAndNamespace, Type_, NumField. cbn [content rbind].
  exact (scanXMLName_fields fs []).
Qed.

Lemma encodeField_at (pre : list field) (f : field) (post : list field)
      (e : DefaultEncoder W) :
  encodeField (mkValue (Some (VStruct (pre ++ f :: post))) false)
              (StructType (map fst (pre ++ f :: post))) (List.length pre) e
  = encodeOne f e.
Proof.
  unfold encodeField, encodeOne, bind, lift, Field, TypeField. cbn [content flagRO].
  rewrite nth_error_middle, nth_error_map_middle.
  destruct f as [sf x]. cbn [fst snd orb].
  unfold isXMLName. cbn [fst].
  destruct (String.eqb (Name sf) "XMLName"); [reflexivity|].
  fold (xmlTag sf).
  rewrite Split_at_0. fold (elementName sf).
  unfold IsZero, omitted. cbn [content fst snd].
  destruct (isZero x && strings.Contains (xmlTag sf) "omitempty"); [reflexivity|].
  destruct (formatField (mkValue (Some x) (negb (IsExported sf)))); reflexivity.
Qed.

Lemma fieldLoop_fields (fs pre : list field) (e : DefaultEncoder W) :
  fieldLoop (mkValue (Some (VStruct (pre ++ fs))) false)
            (StructType (map fst (pre ++ fs))) (List.length pre) (List.length fs) e
  = encodeFields fs e.
Proof.
  revert pre e.
  induction fs as [|f fs IH]; intros pre e; [reflexivity|].
  cbn [List.length fieldLoop encodeFields]. unfold bind.
  rewrite encodeField_at.
  destruct (encodeOne f e) as [[[]|msg] e']; [|reflexivity].
  specialize (IH (pre ++ [f]) e').
  rewrite <- app_assoc in IH. cbn [app] in IH.
  rewrite length_app in IH. cbn [List.length] in IH.
  rewrite Nat.add_1_r in IH.
  exact IH.
Qed.

(** [Encode] on a struct is [encodeStruct] on its fields. *)
Lemma Encode_struct (fs : list field) (e : DefaultEncoder W) :
  Encode (Some (VStruct fs)) e = encodeStruct fs e.
Proof.
  unfold Encode, encodeStruct, bind, lift, ValueOf, Kind_. cbn [content kindOf Kind_eqb].
  rewrite getXMLNameAndNamespace_struct.
  destruct (rootName fs) as [N U].
  destruct (String.eqb N EmptyString); [reflexivity|].
  unfold getBuffer, Type_, NumField, started, rootStart, rootEnd. cbn [content].
  pose proof (fieldLoop_fields fs []) as L. cbn [app List.length] in L.
  destruct e as [w [|b buf]]; cbn [buffer writer List.length Nat.eqb];
    unfold appendBuffer, ret; cbn [writer buffer app]; rewrite L;
    match goal with |- context [encodeFields fs ?e0] =>
      destruct (encodeFields fs e0) as [[[]|msg] e'] end; reflexivity.
Qed.

(** A pointer to a struct is dereferenced first. *)
Lemma Encode_record (v : interface) (fs : list field) (e : DefaultEncoder W) :
  structOf v = Some fs -> Encode v e = encodeStruct fs e.
Proof.
  intros S. rewrite <- Encode_struct.
  destruct v as [[k n|s|[[k n|s|t|fs'|k z]|]|fs'|k z]|]; try discriminate S;
    injection S as ->; reflexivity.
Qed.

End Refinement.

(** ** The traversal in closed form *)

Section ClosedForm.

Import reflect.

Context {W : Type} {verbs : fmt.Verbs}.

Lemma encodeFields_app (pre post : list field) (e : DefaultEncoder W) :
  encodeFields (pre ++ post) e
  = (encodeFields pre ;;; encodeFields post)%method e.
Proof.
  revert e. induction pre as [|f pre IH]; intros e; [reflexivity|].
  cbn [app encodeFields]. unfold bind in *.
  destruct (encodeOne f e) as [[[]|msg] e']; [|reflexivity].
  apply IH.
Qed.

(** A field that is skipped leaves the encoder as it was. *)
Lemma encodeOne_skipped (f : field) (e : DefaultEncoder W) :
  isXMLName f || omitted f = true -> encodeOne f e = (Done tt, e).
Proof.
  unfold encodeOne. intros H.
  destruct (isXMLName f); [reflexivity|].
  cbn [orb] in H. now rewrite H.
Qed.

Lemma formatField_printable (f : field) :
  printable f = true ->
  formatField (mkValue (Some (snd f)) (negb (IsExported (fst f))))
  = Done (rendered (snd f)).
Proof.
  destruct f as [sf x]. unfold printable, formatField, Kind_, Int_, String_of, Interface_.
  cbn [fst snd content flagRO].
  destruct x; cbn [kindOf rendered rbind]; try reflexivity;
    intros ->; reflexivity.
Qed.

(** An emitted, printable field appends exactly its element. *)
Lemma encodeOne_emitted (f : field) (e : DefaultEncoder W) :
  isXMLName f = false -> omitted f = false -> printable f = true ->
  encodeOne f e
  = (Done tt, mkEncoder (writer e) (buffer e ++ bytes (fieldElement f))).
Proof.
  intros HX HO HP. unfold encodeOne. rewrite HX, HO.
  rewrite (formatField_printable f HP). reflexivity.
Qed.

Lemma encodeFields_printable (fs : list field) (e : DefaultEncoder W) :
  forallb printable (emitted fs) = true ->
  encodeFields fs e = (Done tt, mkEncoder (writer e) (buffer e ++ fieldsXML fs)).
Proof.
  revert e. unfold fieldsXML, emitted.
  induction fs as [|f fs IH]; intros e HP.
  - cbn. rewrite app_nil_r. now destruct e.
  - cbn [encodeFields filter] in *. unfold bind.
    destruct (isXMLName f) eqn:HX; cbn [negb andb] in *.
    + rewrite encodeOne_skipped by now rewrite HX.
      now apply IH.
    + destruct (omitted f) eqn:HO; cbn [negb] in *.
      * rewrite encodeOne_skipped by (rewrite HO; apply orb_true_r).
        now apply IH.
      * cbn [forallb] in HP. apply andb_true_iff in HP as [HP1 HP2].
        rewrite encodeOne_emitted by assumption.
        rewrite IH by assumption. cbn [writer buffer map concat].
        now rewrite <- app_assoc.
Qed.

Lemma started_length (buf : list byte) : List.length (started buf) <> 0.
Proof.
  unfold started. destruct (Nat.eqb (List.length buf) 0) eqn:E.
  - discriminate.
  - now apply Nat.eqb_neq.
Qed.

Lemma rootName_valid (v : interface) (fs : list field) (N U : string) :
  validRecord v fs N U -> rootName fs = (N, U).
Proof.
  intros [_ (sf & x & F & S) _ _]. unfold rootName. now rewrite F, S.
Qed.

(** [Encode] on a valid record: the envelope is opened if the buffer is
    empty, and one root block is appended. *)
Lemma Encode_valid (v : interface) (fs : list field) (N U : string)
      (e : DefaultEncoder W) :
  validRecord v fs N U ->
  Encode v e
  = (Done None, mkEncoder (writer e) (started (buffer e) ++ rootElement N U fs)).
Proof.
  intros V. rewrite (Encode_record v e (valid_struct V)).
  unfold encodeStruct. rewrite (rootName_valid V).
  destruct (String.eqb_spec N EmptyString) as [E|_];
    [now destruct (valid_name V)|].
  rewrite (encodeFields_printable _ _ (valid_fields V)).
  cbn [writer buffer]. unfold rootElement.
  now rewrite <- !app_assoc.
Qed.

End ClosedForm.

(** ** Flush *)

Section FlushFacts.

Context {W : Type} {sink : io.Writer W}.

Lemma Flush_empty (e : DefaultEncoder W) :
  buffer e = [] -> Flush e = (Done None, e).
Proof.
  unfold Flush. now intros ->.
Qed.

(** With content buffered, [Flush] hands the buffer and the envelope end
    to the sink in one call of [Write]. *)
Lemma Flush_pending (e : DefaultEncoder W) :
  List.length (buffer e) <> 0 ->
  Flush e
  = let buf := buffer e ++ envelopeEnd in
    let '(w, (_, err)) := io.Write (writer e) buf in
    match err with
    | Some err => (Done (Some err), mkEncoder w buf)
    | None => (Done None, mkEncoder w [])
    end.
Proof.
  unfold Flush. intros H.
  destruct (Nat.ltb_spec 0 (List.length (buffer e))) as [_|L]; [reflexivity|lia].
Qed.

End FlushFacts.

(** ** Records that are rejected, and inputs that are not records *)

Section Rejection.

Import reflect.

Context {W : Type} {verbs : fmt.Verbs}.

Lemma rootName_absent (fs : list field) :
  (forall f, In f fs -> Name (fst f) <> "XMLName") ->
  rootName fs = (EmptyString, EmptyString).
Proof.
  intros H. unfold rootName.
  replace (find isXMLName fs) with (@None field); [reflexivity|].
  induction fs as [|f fs IH]; [reflexivity|].
  cbn [find]. unfold isXMLName at 1.
  destruct (String.eqb_spec (Name (fst f)) "XMLName") as [E|_].
  - now destruct (H f (or_introl eq_refl)).
  - apply IH. intros g Hg. apply H. now right.
Qed.

(** C3: a record with no field named XMLName is rejected with the
    MissingRootName error, and the encoder, its buffer included, is
    exactly as it was before the call. *)
Theorem Encode_without_XMLName (v : interface) (fs : list field)
        (e : DefaultEncoder W) :
  structOf v = Some fs ->
  (forall f, In f fs -> Name (fst f) <> "XMLName") ->
  Encode v e = (Done (Some MissingRootName), e).
Proof.
  intros S H. rewrite (Encode_record v e S).
  unfold encodeStruct. now rewrite (rootName_absent fs H).
Qed.

(** C10: an input that is not a struct after at most one pointer
    dereference (nil, an int, a string, a pointer to a pointer, ...) makes
    Encode panic in the field enumeration; no error is returned, and the
    encoder is untouched. *)
Theorem Encode_panics_on_non_struct (v : interface) (e : DefaultEncoder W) :
  structOf v = None ->
  exists msg, Encode v e = (Panic msg, e).
Proof.
  intros S.
  destruct v as [[k n|s|[[k n|s|t|fs'|k z]|]|fs'|k z]|]; try discriminate S;
    eexists; reflexivity.
Qed.

End Rejection.

(** ** The envelope protocol of Flush *)

Section Protocol.

Context {W : Type} {sink : io.Writer W}.

Lemma Flush_success_clears (e e' : DefaultEncoder W) :
  Flush e = (Done None, e') -> buffer e' = [].
Proof.
  unfold Flush.
  destruct (Nat.ltb_spec 0 (List.length (buffer e))) as [L|L].
  - destruct (io.Write _ _) as [w [n [err|]]]; intros [= <-]; reflexivity.
  - intros [= <-]. destruct (buffer e); [reflexivity | cbn in L; lia].
Qed.

(** C8: on an empty buffer Flush succeeds and leaves the encoder, sink
    included, exactly as it was: no write, no envelope text.  This is the
    state of a fresh encoder and the state after a Flush that succeeded,
    and flushing it again changes nothing. *)
Theorem Flush_on_empty_buffer :
  (forall e : DefaultEncoder W, buffer e = [] -> Flush e = (Done None, e))
  /\ (forall w : W, Flush (NewEncoder w) = (Done None, NewEncoder w))
  /\ (forall e e' : DefaultEncoder W,
         Flush e = (Done None, e') -> Flush e' = (Done None, e'))
  /\ (forall e : DefaultEncoder W,
         buffer e = [] -> (Flush ;;; Flush)%method e = Flush e).
Proof.
  split; [exact Flush_empty|].
  split; [intros w; now apply Flush_empty|].
  split.
  - intros e e' H. apply Flush_empty. exact (Flush_success_clears e H).
  - intros e H. unfold bind. now rewrite !(Flush_empty e H).
Qed.

(** C9: when the write fails, the envelope end is already part of the
    buffer that is kept, so the next Flush appends it again and hands the
    sink the pending content followed by the envelope end twice; if that
    write succeeds the buffer is cleared. *)
Theorem Flush_retry_repeats_envelope_end (e : DefaultEncoder W) (w1 : W)
        (n : Z) (err : error) :
  List.length (buffer e) <> 0 ->
  io.Write (writer e) (buffer e ++ envelopeEnd) = (w1, (n, Some err)) ->
  let e1 := mkEncoder w1 (buffer e ++ envelopeEnd) in
  let again := buffer e ++ envelopeEnd ++ envelopeEnd in
  Flush e = (Done (Some err), e1)
  /\ Flush e1
     = (let '(w2, (_, err2)) := io.Write w1 again in
        match err2 with
        | Some err2 => (Done (Some err2), mkEncoder w2 again)
        | None => (Done None, mkEncoder w2 [])
        end).
Proof.
  intros L Wr e1 again. split.
  - rewrite (Flush_pending e L). cbv zeta. now rewrite Wr.
  - rewrite Flush_pending.
    + subst e1 again. cbn [buffer writer]. now rewrite <- app_assoc.
    + subst e1. cbn [buffer]. rewrite length_app. lia.
Qed.

End Protocol.

Section FailedFlush.

Context {W : Type} {verbs : fmt.Verbs} {sink : io.Writer W}.

(** C1, amended: when the write fails the error is returned and the
    buffer is not cleared; what was pending is still there, at the front
    of a non-empty buffer, and the next Encode of a valid record appends
    its root block to that buffer without opening a new envelope. *)
Theorem Flush_failure_keeps_pending (e : DefaultEncoder W) (w1 : W)
        (n : Z) (err : error) :
  List.length (buffer e) <> 0 ->
  io.Write (writer e) (buffer e ++ envelopeEnd) = (w1, (n, Some err)) ->
  exists e', Flush e = (Done (Some err), e')
             /\ (exists rest, buffer e' = buffer e ++ rest)
             /\ List.length (buffer e') <> 0
             /\ (forall v fs N U,
                    validRecord v fs N U ->
                    Encode v e'
                    = (Done None,
                       mkEncoder (writer e') (buffer e' ++ rootElement N U fs))).
Proof.
  intros L Wr. rewrite (Flush_pending e L). cbv zeta. rewrite Wr.
  eexists. split; [reflexivity|]. cbn [buffer writer].
  assert (L' : List.length (buffer e ++ envelopeEnd) <> 0)
    by (rewrite length_app; lia).
  split; [now exists envelopeEnd|]. split; [exact L'|].
  intros v fs N U V. rewrite (Encode_valid _ V). cbn [buffer writer].
  unfold started. apply Nat.eqb_neq in L'. now rewrite L'.
Qed.

End FailedFlush.

(** ** What Encode appends for a record *)

Section Encoding.

Import reflect.

Context {W : Type} {verbs : fmt.Verbs}.

Lemma find_skip (pre post : list field) (f : field) :
  isXMLName f = false ->
  find isXMLName (pre ++ f :: post) = find isXMLName (pre ++ post).
Proof.
  intros H. induction pre as [|p pre IH]; cbn [app find].
  - now rewrite H.
  - now rewrite IH.
Qed.

Lemma encodeStruct_skip (pre post : list field) (f : field)
      (e : DefaultEncoder W) :
  isXMLName f = false -> omitted f = true ->
  encodeStruct (pre ++ f :: post) e = encodeStruct (pre ++ post) e.
Proof.
  intros HX HO. unfold encodeStruct, rootName.
  rewrite (find_skip pre post f HX).
  match goal with |- context [let '(N, U) := ?r in _] => destruct r as [N U] end.
  destruct (String.eqb N EmptyString); [reflexivity|].
  rewrite !encodeFields_app. unfold bind.
  destruct (encodeFields pre _) as [[[]|msg] e1]; [|reflexivity].
  cbn [encodeFields]. unfold bind.
  rewrite encodeOne_skipped by (rewrite HO; apply orb_true_r).
  reflexivity.
Qed.

Lemma fieldsXML_app (pre post : list field) :
  fieldsXML (pre ++ post) = fieldsXML pre ++ fieldsXML post.
Proof.
  unfold fieldsXML, emitted. now rewrite filter_app, map_app, concat_app.
Qed.

Lemma fieldsXML_emitted (f : field) (post : list field) :
  isXMLName f = false -> omitted f = false ->
  fieldsXML (f :: post) = bytes (fieldElement f) ++ fieldsXML post.
Proof.
  intros HX HO. unfold fieldsXML, emitted. cbn [filter].
  now rewrite HX, HO.
Qed.

(** C2, amended: when the XMLName field is there but its tag does not
    split on a space into exactly two parts, Encode does not fail: the
    root name falls back to the field's name, XMLName, with an empty
    namespace, and the root block is appended under that name. *)
Theorem Encode_malformed_root_tag (v : interface) (fs : list field)
        (sf : StructField) (x : GoValue) (e : DefaultEncoder W) :
  structOf v = Some fs ->
  find isXMLName fs = Some (sf, x) ->
  List.length (strings.Split (xmlTag sf) " ") <> 2 ->
  forallb printable (emitted fs) = true ->
  getXMLNameAndNamespace (mkValue (Some (VStruct fs)) false)
  = Done ("XMLName", EmptyString)
  /\ Encode v e
     = (Done None,
        mkEncoder (writer e)
                  (started (buffer e) ++ rootElement "XMLName" EmptyString fs)).
Proof.
  intros S F L P.
  assert (R : rootName fs = ("XMLName", EmptyString)).
  { unfold rootName. rewrite F.
    apply Nat.eqb_neq in L. rewrite L.
    apply find_some in F as [_ F]. unfold isXMLName in F. cbn [fst] in F.
    apply String.eqb_eq in F. now rewrite F. }
  split.
  - now rewrite getXMLNameAndNamespace_struct, R.
  - rewrite (Encode_record v e S). unfold encodeStruct. rewrite R.
    cbn [String.eqb].
    rewrite (encodeFields_printable _ _ P).
    cbn [writer buffer]. unfold rootElement. now rewrite <- !app_assoc.
Qed.

(** C6: a field other than XMLName whose tag carries omitempty.  With a
    zero value (0, the empty string) Encode behaves exactly as on the
    record without that field; with a non-zero value its element stands
    in the root block between the elements of the fields declared before
    it and of those declared after it. *)
Theorem omitempty_field (pre post : list field) (f : field)
        (e : DefaultEncoder W) :
  isXMLName f = false ->
  strings.Contains (xmlTag (fst f)) "omitempty" = true ->
  (isZero (snd f) = true ->
   forall v v', structOf v = Some (pre ++ f :: post) ->
                structOf v' = Some (pre ++ post) ->
                Encode v e = Encode v' e)
  /\ (isZero (snd f) = false ->
      forall v N U, validRecord v (pre ++ f :: post) N U ->
        Encode v e
        = (Done None,
           mkEncoder (writer e)
             (started (buffer e) ++ bytes (rootStart N U)
                ++ fieldsXML pre ++ bytes (fieldElement f) ++ fieldsXML post
                ++ bytes (rootEnd N)))).
Proof.
  intros HX HC. split.
  - intros HZ v v' S S'.
    rewrite (Encode_record v e S), (Encode_record v' e S').
    apply encodeStruct_skip; [exact HX|].
    unfold omitted. now rewrite HZ, HC.
  - intros HZ v N U V.
    rewrite (Encode_valid e V). unfold rootElement.
    rewrite fieldsXML_app, fieldsXML_emitted; [|exact HX|].
    + now rewrite <- !app_assoc.
    + unfold omitted. now rewrite HZ.
Qed.

Lemma Sprintf_d_decimal (n : Z) :
  option_map Z.of_int (NilZero.int_of_string (fmt.Sprintf_d n)) = Some n.
Proof.
  unfold fmt.Sprintf_d.
  rewrite NilZero.isi.
  - cbn [option_map]. now rewrite DecimalZ.of_to.
  - destruct n as [|p|p]; cbn; try discriminate.
    intros [= H]. revert H. apply DecimalPos.Unsigned.to_uint_nonnil.
  - destruct n as [|p|p]; cbn; try discriminate.
    intros [= H]. revert H. apply DecimalPos.Unsigned.to_uint_nonnil.
Qed.

End Encoding.

Section FieldOrder.

Import reflect.

Context {W : Type} {verbs : fmt.Verbs}.

(** C7: for a valid record Encode appends the root start, then one
    element per emitted field in declaration order (XMLName and omitted
    fields left out), then the root end.  Each element is a newline, six
    spaces and the element [name] with an empty xmlns, the name being the first
    comma-separated segment of the tag; a signed integer is written in
    decimal, a string as it is, any other kind as [%v] gives it. *)
Theorem Encode_fields_in_order (v : interface) (fs : list field) (N U : string)
        (e : DefaultEncoder W) :
  validRecord v fs N U ->
  let name (f : field) := hd EmptyString (strings.Split (xmlTag (fst f)) ",") in
  let element (f : field) : string :=
    (newline ++ "      <" ++ name f ++ " xmlns=" ++ quote ++ quote ++ ">"
             ++ rendered (snd f) ++ "</" ++ name f ++ ">")%string in
  let kept (f : field) := negb (isXMLName f) && negb (omitted f) in
  Encode v e
  = (Done None,
     mkEncoder (writer e)
       (started (buffer e) ++ bytes (rootStart N U)
          ++ concat (map (fun f => bytes (element f)) (filter kept fs))
          ++ bytes (rootEnd N)))
  /\ (forall k n, rendered (VSigned k n) = fmt.Sprintf_d n
                  /\ option_map Z.of_int (NilZero.int_of_string (fmt.Sprintf_d n))
                     = Some n)
  /\ (forall s, rendered (VString s) = s)
  /\ (forall x, match kindOf x with
                | Signed _ | String_ => True
                | _ => rendered x = fmt.Sprintf_v x
                end).
Proof.
  intros V name element kept. split; [|split; [|split]].
  - rewrite (Encode_valid e V). reflexivity.
  - intros k n. split; [reflexivity | apply Sprintf_d_decimal].
  - reflexivity.
  - intros x. destruct x; cbn; trivial.
Qed.

End FieldOrder.

(** ** Encode followed by Flush *)

Section Envelope.

Import reflect.

Context {W : Type} {verbs : fmt.Verbs} {sink : io.Writer W}.

(** C4: on an encoder with an empty buffer, Encode of a valid record
    followed by a Flush whose write the sink accepts hands the sink, in
    that one write, the envelope start, the single root block
    [<N xmlns="U">...</N>] and the envelope end, and leaves the buffer
    empty. *)
Theorem Encode_then_Flush (v : interface) (fs : list field) (N U : string)
        (e : DefaultEncoder W) (w' : W) (n : Z) :
  validRecord v fs N U ->
  buffer e = [] ->
  let output := bytes SOAPEnvelopeStart ++ rootElement N U fs ++ envelopeEnd in
  io.Write (writer e) output = (w', (n, None)) ->
  let e1 := mkEncoder (writer e) (bytes SOAPEnvelopeStart ++ rootElement N U fs) in
  Encode v e = (Done None, e1)
  /\ Flush e1 = (Done None, mkEncoder w' []).
Proof.
  intros V B output Wr e1. split.
  - rewrite (Encode_valid e V). unfold started. now rewrite B.
  - rewrite Flush_pending.
    + subst e1 output. cbn [buffer writer]. cbv zeta.
      rewrite <- app_assoc. now rewrite Wr.
    + subst e1. cbn [buffer]. rewrite length_app. discriminate.
Qed.

(** C5: Encode(A); Encode(B); Flush() on valid records.  The envelope
    start is appended by the first Encode only if the buffer was empty,
    and never by the second; the buffer then holds A's root block followed
    by B's; Flush hands the sink the whole buffer and the envelope end in
    a single write. *)
Theorem Encode_twice_then_Flush (a b : interface) (fsA fsB : list field)
        (NA UA NB UB : string) (e : DefaultEncoder W) :
  validRecord a fsA NA UA ->
  validRecord b fsB NB UB ->
  let opened := if Nat.eqb (List.length (buffer e)) 0
                then bytes SOAPEnvelopeStart else buffer e in
  let e1 := mkEncoder (writer e) (opened ++ rootElement NA UA fsA) in
  let e2 := mkEncoder (writer e)
              (opened ++ rootElement NA UA fsA ++ rootElement NB UB fsB) in
  let output := opened ++ rootElement NA UA fsA ++ rootElement NB UB fsB
                       ++ envelopeEnd in
  Encode a e = (Done None, e1)
  /\ Encode b e1 = (Done None, e2)
  /\ Flush e2
     = (let '(w, (_, err)) := io.Write (writer e) output in
        match err with
        | Some err => (Done (Some err), mkEncoder w output)
        | None => (Done None, mkEncoder w [])
        end).
Proof.
  intros VA VB opened e1 e2 output.
  assert (L1 : List.length (buffer e1) <> 0).
  { subst e1. cbn [buffer]. rewrite length_app.
    pose proof (started_length (buffer e)) as S. unfold started in S.
    subst opened. lia. }
  split; [|split].
  - now rewrite (Encode_valid e VA).
  - rewrite (Encode_valid e1 VB). unfold started.
    apply Nat.eqb_neq in L1. rewrite L1.
    subst e1 e2. cbn [writer buffer]. now rewrite <- app_assoc.
  - rewrite Flush_pending.
    + subst e2 output. cbn [writer buffer]. cbv zeta.
      now rewrite <- !app_assoc.
    + subst e2. cbn [buffer]. rewrite app_assoc, length_app.
      subst e1. cbn [buffer] in L1. lia.
Qed.

End Envelope.

(** ** The theorems at concrete records and sinks *)

Lemma person_valid (name : string) (age : Z) :
  validRecord (Some (person name age))
    [ (exported "XMLName" "urn:example Person", xmlName);
      (exported "Name" "Name", reflect.VString name);
      (exported "Age" "Age,omitempty", reflect.VSigned reflect.Int age) ]
    "Person" "urn:example".
Proof.
  constructor.
  - reflexivity.
  - eexists _, _. split; reflexivity.
  - discriminate.
  - unfold emitted. cbn [filter].
    repeat match goal with
           | |- context [negb ?a && negb ?b] => destruct (negb a && negb b)
           end; reflexivity.
Qed.

Lemma Encode_without_XMLName_witness :
  Encode (Some anonymous) (NewEncoder (mkPipe [] []))
  = (Done (Some MissingRootName), NewEncoder (mkPipe [] [])).
Proof.
  apply (@Encode_without_XMLName Pipe plainVerbs (Some anonymous)
           [ (exported "Name" "Name", reflect.VString "Alice") ]).
  - reflexivity.
  - intros f [<-|[]]. discriminate.
Defined.

Lemma Encode_panics_on_non_struct_witness :
  exists msg,
    Encode (Some (reflect.VPtr (Some (reflect.VPtr (Some (person "Alice" 30))))))
           (NewEncoder (mkPipe [] []))
    = (Panic msg, NewEncoder (mkPipe [] [])).
Proof.
  apply (@Encode_panics_on_non_struct Pipe plainVerbs). reflexivity.
Defined.

Lemma Flush_on_empty_buffer_witness :
  Flush (mkEncoder (mkPipe [Some "broken pipe"] []) [])
  = (Done None, mkEncoder (mkPipe [Some "broken pipe"] []) []).
Proof.
  apply (proj1 (@Flush_on_empty_buffer Pipe Pipe_Writer)). reflexivity.
Defined.

Lemma Flush_retry_repeats_envelope_end_witness :
  let pending := bytes SOAPEnvelopeStart
                 ++ rootElement "Person" "urn:example"
                      [ (exported "Name" "Name", reflect.VString "Alice") ] in
  let e := mkEncoder (mkPipe [Some "broken pipe"] []) pending in
  let e1 := mkEncoder (mkPipe [] [pending ++ envelopeEnd]) (pending ++ envelopeEnd) in
  Flush e = (Done (Some "broken pipe"), e1)
  /\ Flush e1
     = (Done None,
        mkEncoder (mkPipe [] [pending ++ envelopeEnd;
                              pending ++ envelopeEnd ++ envelopeEnd]) []).
Proof.
  intros pending e e1.
  destruct (@Flush_retry_repeats_envelope_end Pipe Pipe_Writer e
              (mkPipe [] [pending ++ envelopeEnd]) 0%Z "broken pipe")
    as [H1 H2].
  - vm_compute. discriminate.
  - reflexivity.
  - split; [exact H1|]. exact (eq_trans H2 eq_refl).
Defined.

(** C1 as stated fails: after a failed write the buffer is not empty. *)
Lemma Flush_failure_buffer_not_cleared :
  let e := snd (Encode (Some (person "Alice" 30))
                       (NewEncoder (mkPipe [Some "broken pipe"] []))) in
  fst (Flush e) = Done (Some "broken pipe")
  /\ buffer (snd (Flush e)) <> []
  /\ buffer (snd (Flush e)) = buffer e ++ envelopeEnd.
Proof.
  vm_compute. repeat split. discriminate.
Qed.

Lemma Flush_failure_keeps_pending_witness :
  let pending := bytes SOAPEnvelopeStart
                 ++ rootElement "Person" "urn:example"
                      [ (exported "Name" "Name", reflect.VString "Alice") ] in
  let e := mkEncoder (mkPipe [Some "broken pipe"] []) pending in
  exists e', Flush e = (Done (Some "broken pipe"), e')
             /\ (exists rest, buffer e' = buffer e ++ rest)
             /\ List.length (buffer e') <> 0
             /\ (forall v fs N U,
                    validRecord v fs N U ->
                    Encode v e'
                    = (Done None,
                       mkEncoder (writer e') (buffer e' ++ rootElement N U fs))).
Proof.
  intros pending e.
  apply (@Flush_failure_keeps_pending Pipe plainVerbs Pipe_Writer e
           (mkPipe [] [pending ++ envelopeEnd]) 0%Z "broken pipe").
  - vm_compute. discriminate.
  - reflexivity.
Defined.

(** C2 as stated fails: the XMLName tag of [bareRoot] has one part, yet
    Encode returns no error and the buffer has grown. *)
Lemma Encode_one_part_tag_not_rejected :
  let e := NewEncoder (mkPipe [] []) in
  (exists fs sf x,
      structOf (Some bareRoot) = Some fs
      /\ find isXMLName fs = Some (sf, x)
      /\ List.length (strings.Split (xmlTag sf) " ") = 1)
  /\ fst (Encode (Some bareRoot) e) = Done None
  /\ fst (Encode (Some bareRoot) e) <> Done (Some MissingRootName)
  /\ buffer (snd (Encode (Some bareRoot) e)) <> buffer e.
Proof.
  intros e. split; [|split; [|split]].
  - eexists _, _, _. repeat split; reflexivity.
  - reflexivity.
  - vm_compute. discriminate.
  - vm_compute. discriminate.
Qed.

Lemma Encode_malformed_root_tag_witness :
  let fs := [ (exported "XMLName" "Person", xmlName);
              (exported "Name" "Name", reflect.VString "Alice") ] in
  let e := NewEncoder (mkPipe [] []) in
  getXMLNameAndNamespace (reflect.mkValue (Some (reflect.VStruct fs)) false)
  = Done ("XMLName", EmptyString)
  /\ Encode (Some bareRoot) e
     = (Done None,
        mkEncoder (writer e)
                  (started (buffer e) ++ rootElement "XMLName" EmptyString fs)).
Proof.
  intros fs e.
  apply (@Encode_malformed_root_tag Pipe plainVerbs (Some bareRoot) fs
           (exported "XMLName" "Person") (xmlName) e).
  - reflexivity.
  - reflexivity.
  - vm_compute. discriminate.
  - reflexivity.
Defined.

Lemma Encode_then_Flush_witness :
  let fs := [ (exported "XMLName" "urn:example Person", xmlName);
              (exported "Name" "Name", reflect.VString "Alice");
              (exported "Age" "Age,omitempty", reflect.VSigned reflect.Int 30) ] in
  let block := rootElement "Person" "urn:example" fs in
  let output := bytes SOAPEnvelopeStart ++ block ++ envelopeEnd in
  let e1 := mkEncoder (mkPipe [] []) (bytes SOAPEnvelopeStart ++ block) in
  Encode (Some (person "Alice" 30)) (NewEncoder (mkPipe [] [])) = (Done None, e1)
  /\ Flush e1 = (Done None, mkEncoder (mkPipe [] [output]) []).
Proof.
  intros fs block output e1.
  apply (@Encode_then_Flush Pipe plainVerbs Pipe_Writer (Some (person "Alice" 30)) fs
           "Person" "urn:example" (NewEncoder (mkPipe [] []))
           (mkPipe [] [output]) (Z.of_nat (List.length output))).
  - apply person_valid.
  - reflexivity.
  - reflexivity.
Defined.

Lemma Encode_twice_then_Flush_witness :
  let fsA := [ (exported "XMLName" "urn:example Person", xmlName);
               (exported "Name" "Name", reflect.VString "Alice");
               (exported "Age" "Age,omitempty", reflect.VSigned reflect.Int 30) ] in
  let fsB := [ (exported "XMLName" "urn:example Person", xmlName);
               (exported "Name" "Name", reflect.VString "Bob");
               (exported "Age" "Age,omitempty", reflect.VSigned reflect.Int 0) ] in
  let A := rootElement "Person" "urn:example" fsA in
  let B := rootElement "Person" "urn:example" fsB in
  let e := NewEncoder (mkPipe [] []) in
  let e1 := mkEncoder (mkPipe [] []) (bytes SOAPEnvelopeStart ++ A) in
  let e2 := mkEncoder (mkPipe [] []) (bytes SOAPEnvelopeStart ++ A ++ B) in
  Encode (Some (person "Alice" 30)) e = (Done None, e1)
  /\ Encode (Some (person "Bob" 0)) e1 = (Done None, e2)
  /\ Flush e2
     = (Done None,
        mkEncoder (mkPipe [] [bytes SOAPEnvelopeStart ++ A ++ B ++ envelopeEnd]) []).
Proof.
  intros fsA fsB A B e e1 e2.
  exact (@Encode_twice_then_Flush Pipe plainVerbs Pipe_Writer
           (Some (person "Alice" 30)) (Some (person "Bob" 0)) fsA fsB
           "Person" "urn:example" "Person" "urn:example" e
           (person_valid "Alice" 30) (person_valid "Bob" 0)).
Defined.

Lemma omitempty_field_witness :
  let root := (exported "XMLName" "urn:example Person", xmlName) in
  let name := (exported "Name" "Name", reflect.VString "Alice") in
  let age (n : Z) := (exported "Age" "Age,omitempty", reflect.VSigned reflect.Int n) in
  let e := NewEncoder (mkPipe [] []) in
  Encode (Some (person "Alice" 0)) e
  = Encode (Some (reflect.VStruct [root; name])) e
  /\ Encode (Some (person "Alice" 30)) e
     = (Done None,
        mkEncoder (mkPipe [] [])
          (bytes SOAPEnvelopeStart ++ bytes (rootStart "Person" "urn:example")
             ++ fieldsXML [root; name] ++ bytes (fieldElement (age 30%Z))
             ++ fieldsXML [] ++ bytes (rootEnd "Person"))).
Proof.
  intros root name age e. split.
  - apply (proj1 (@omitempty_field Pipe plainVerbs [root; name] [] (age 0%Z) e
                    eq_refl eq_refl));
      reflexivity.
  - apply (proj2 (@omitempty_field Pipe plainVerbs [root; name] [] (age 30%Z) e
                    eq_refl eq_refl)).
    + reflexivity.
    + apply person_valid.
Defined.

Lemma Encode_fields_in_order_witness :
  let root := (exported "XMLName" "urn:example Person", xmlName) in
  let name := (exported "Name" "Name", reflect.VString "Alice") in
  let age := (exported "Age" "Age,omitempty", reflect.VSigned reflect.Int 30) in
  Encode (Some (person "Alice" 30)) (NewEncoder (mkPipe [] []))
  = (Done None,
     mkEncoder (mkPipe [] [])
       (bytes SOAPEnvelopeStart ++ bytes (rootStart "Person" "urn:example")
          ++ (bytes (newline ++ "      <Name xmlns=" ++ quote ++ quote ++ ">Alice</Name>")
              ++ bytes (newline ++ "      <Age xmlns=" ++ quote ++ quote ++ ">30</Age>")
              ++ [])
          ++ bytes (rootEnd "Person"))).
Proof.
  intros root name age.
  exact (proj1 (@Encode_fields_in_order Pipe plainVerbs (Some (person "Alice" 30))
                  [root; name; age] "Person" "urn:example"
                  (NewEncoder (mkPipe [] [])) (person_valid "Alice" 30))).
Defined.

(** ** Every outcome of Encode *)

Section Outcomes.

Import reflect.

Context {W : Type} {verbs : fmt.Verbs}.

Lemma formatField_done (f : field) (s : string) :
  formatField (mkValue (Some (snd f)) (negb (IsExported (fst f)))) = Done s ->
  printable f = true /\ s = rendered (snd f).
Proof.
  destruct f as [sf x].
  unfold printable, formatField, Kind_, Int_, String_of, Interface_.
  cbn [fst snd content flagRO].
  destruct x; cbn [kindOf rendered rbind];
    try (intros [= <-]; now split);
    destruct (IsExported sf); cbn [negb rbind];
    try discriminate; intros [= <-]; now split.
Qed.

Lemma formatField_unprintable (f : field) :
  printable f = false ->
  exists msg,
    formatField (mkValue (Some (snd f)) (negb (IsExported (fst f)))) = Panic msg.
Proof.
  intros P.
  destruct (formatField (mkValue (Some (snd f)) (negb (IsExported (fst f)))))
    as [s|msg] eqn:F.
  - apply formatField_done in F as [F _]. congruence.
  - now exists msg.
Qed.

(** One turn either leaves the encoder alone or appends to its buffer. *)
Lemma encodeOne_appends (f : field) (e : DefaultEncoder W) :
  writer (snd (encodeOne f e)) = writer e
  /\ exists rest, buffer (snd (encodeOne f e)) = buffer e ++ rest.
Proof.
  unfold encodeOne.
  destruct (isXMLName f); [split; [reflexivity | exists []; now rewrite app_nil_r]|].
  destruct (omitted f); [split; [reflexivity | exists []; now rewrite app_nil_r]|].
  destruct (formatField _) as [s|msg]; cbn.
  - split; [reflexivity | now eexists].
  - split; [reflexivity | exists []; now rewrite app_nil_r].
Qed.

Lemma encodeFields_appends (fs : list field) (e : DefaultEncoder W) :
  writer (snd (encodeFields fs e)) = writer e
  /\ exists rest, buffer (snd (encodeFields fs e)) = buffer e ++ rest.
Proof.
  revert e. induction fs as [|f fs IH]; intros e.
  - cbn. split; [reflexivity | exists []; now rewrite app_nil_r].
  - cbn [encodeFields]. unfold bind.
    destruct (encodeOne_appends f e) as [Hw [r1 Hb]].
    destruct (encodeOne f e) as [[[]|msg] e1]; cbn [snd] in *.
    + destruct (IH e1) as [Hw2 [r2 Hb2]]. split; [congruence|].
      exists (r1 ++ r2). now rewrite Hb2, Hb, app_assoc.
    + split; [exact Hw | now exists r1].
Qed.

(** If the traversal returns, every emitted field was printable. *)
Lemma encodeFields_done (fs : list field) (e e' : DefaultEncoder W) :
  encodeFields fs e = (Done tt, e') -> forallb printable (emitted fs) = true.
Proof.
  revert e. unfold emitted.
  induction fs as [|f fs IH]; intros e; [reflexivity|].
  cbn [encodeFields filter]. unfold bind.
  destruct (encodeOne f e) as [[[]|msg] e1] eqn:E1; [|discriminate].
  intros H. apply IH in H.
  destruct (isXMLName f) eqn:HX; cbn [negb andb]; [exact H|].
  destruct (omitted f) eqn:HO; cbn [negb]; [exact H|].
  cbn [forallb]. rewrite H, andb_true_r.
  unfold encodeOne in E1. rewrite HX, HO in E1.
  destruct (formatField _) as [s|msg] eqn:F; [|discriminate E1].
  now apply formatField_done in F.
Qed.

(** The traversal stops at the first emitted field that cannot be
    formatted, with the elements of the fields before it appended. *)
Lemma encodeFields_stops (pre post : list field) (f : field)
      (e : DefaultEncoder W) :
  forallb printable (emitted pre) = true ->
  isXMLName f = false -> omitted f = false -> printable f = false ->
  exists msg,
    encodeFields (pre ++ f :: post) e
    = (Panic msg, mkEncoder (writer e) (buffer e ++ fieldsXML pre)).
Proof.
  intros P HX HO HP.
  destruct (formatField_unprintable f HP) as [msg F].
  exists msg. rewrite encodeFields_app. unfold bind.
  rewrite (encodeFields_printable pre e P).
  cbn [encodeFields]. unfold bind, encodeOne. rewrite HX, HO, F. reflexivity.
Qed.

Lemma Encode_unchanged_on_non_record (v : interface) (e : DefaultEncoder W) :
  structOf v = None -> exists msg, Encode v e = (Panic msg, e).
Proof.
  intros S.
  destruct v as [[k n|s|[[k n|s|t|fs'|k z]|]|fs'|k z]|]; try discriminate S;
    eexists; reflexivity.
Qed.

Lemma started_prefix (buf : list byte) : exists rest, started buf = buf ++ rest.
Proof.
  unfold started. destruct buf as [|b buf]; cbn.
  - now eexists.
  - exists []. now rewrite app_nil_r.
Qed.

(** With [%v] a pure text, Encode leaves the writer alone and only
    appends. *)
Lemma Encode_appends_pure (v : interface) (e : DefaultEncoder W) :
  writer (snd (Encode v e)) = writer e
  /\ exists rest, buffer (snd (Encode v e)) = buffer e ++ rest.
Proof.
  assert (Same : writer e = writer e /\ exists rest, buffer e = buffer e ++ rest)
    by (split; [reflexivity | exists []; now rewrite app_nil_r]).
  destruct (structOf v) as [fs|] eqn:S.
  - rewrite (Encode_record v e S). unfold encodeStruct.
    destruct (rootName fs) as [N U].
    destruct (String.eqb N EmptyString); [exact Same|].
    match goal with |- context [encodeFields fs ?e0] =>
      destruct (encodeFields_appends fs e0) as [Hw [r Hb]];
      destruct (encodeFields fs e0) as [[[]|msg] e1] end;
      cbn [snd writer buffer] in *;
      (split; [exact Hw|]);
      destruct (started_prefix (buffer e)) as [r0 H0];
      rewrite Hb, H0, <- !app_assoc; now eexists.
  - destruct (Encode_unchanged_on_non_record v e S) as [msg ->]. exact Same.
Qed.

(** A turn for a field that is skipped, read directly or unexported does
    not consult [%v]. *)
Lemma encodeOne_verb_free (verbs' : fmt.Verbs) (f : field) (e : DefaultEncoder W) :
  negb (isXMLName f) && negb (omitted f) = true ->
  readDirectly (snd f) || negb (IsExported (fst f)) = true ->
  @encodeOne W verbs' f e = @encodeOne W verbs f e.
Proof.
  intros K D. apply andb_true_iff in K as [KX KO].
  apply negb_true_iff in KX. apply negb_true_iff in KO.
  unfold encodeOne. rewrite KX, KO.
  destruct f as [sf x]. cbn [fst snd] in *.
  unfold formatField, Kind_, Int_, String_of, Interface_. cbn [content flagRO].
  destruct x; cbn [kindOf rbind readDirectly orb] in *; try reflexivity;
    rewrite D; reflexivity.
Qed.

Lemma encodeFields_verb_free (verbs' : fmt.Verbs) (fs : list field)
      (e : DefaultEncoder W) :
  forallb (fun f => readDirectly (snd f) || negb (IsExported (fst f)))
          (emitted fs) = true ->
  @encodeFields W verbs' fs e = @encodeFields W verbs fs e.
Proof.
  revert e. unfold emitted.
  induction fs as [|f fs IH]; intros e H; [reflexivity|].
  cbn [encodeFields filter] in *. unfold bind.
  destruct (negb (isXMLName f) && negb (omitted f)) eqn:K.
  - cbn [forallb] in H. apply andb_true_iff in H as [D H].
    rewrite (encodeOne_verb_free verbs' f e K D).
    destruct (encodeOne f e) as [[[]|msg] e1]; [now apply IH | reflexivity].
  - assert (Sk : isXMLName f || omitted f = true).
    { destruct (isXMLName f), (omitted f); try reflexivity; discriminate K. }
    rewrite (@encodeOne_skipped W verbs' f e Sk), (@encodeOne_skipped W verbs f e Sk).
    now apply IH.
Qed.

(** On an argument none of whose fields is handed to [%v], Encode does
    the same under every [%v]. *)
Lemma Encode_verb_free (verbs' : fmt.Verbs) (v : interface) (e : DefaultEncoder W) :
  avoidsVerbV v = true ->
  @Encode W verbs' v e = @Encode W verbs v e.
Proof.
  intros A. unfold avoidsVerbV in A.
  destruct (structOf v) as [fs|] eqn:S.
  - rewrite (@Encode_record W verbs' v fs e S), (@Encode_record W verbs v fs e S).
    unfold encodeStruct.
    destruct (rootName fs) as [N U].
    destruct (String.eqb N EmptyString); [reflexivity|].
    now rewrite (encodeFields_verb_free verbs' fs _ A).
  - destruct v as [[k n|s|[[k n|s|t|fs'|k z]|]|fs'|k z]|]; try discriminate S;
      reflexivity.
Qed.

(** Encode performs no I/O and only ever appends.  For an argument none of
    whose fields is handed to [%v], however the call ends (nil, error or
    panic): the outcome is the same under every [%v], the writer is the one
    the encoder had, and the bytes buffered before the call are still the
    front of the buffer. *)
Theorem Encode_only_appends (v : interface) (e : DefaultEncoder W) :
  avoidsVerbV v = true ->
  (forall verbs' : fmt.Verbs, @Encode W verbs' v e = @Encode W verbs v e)
  /\ writer (snd (Encode v e)) = writer e
  /\ exists rest, buffer (snd (Encode v e)) = buffer e ++ rest.
Proof.
  intros A. split; [|apply Encode_appends_pure].
  intros verbs'. now apply Encode_verb_free.
Qed.

(** The only error Encode returns is the MissingRootName one, and it
    returns it with the encoder exactly as it was. *)
Theorem Encode_error_is_MissingRootName (v : interface) (e e' : DefaultEncoder W)
        (err : error) :
  Encode v e = (Done (Some err), e') ->
  err = MissingRootName /\ e' = e.
Proof.
  destruct (structOf v) as [fs|] eqn:S.
  - rewrite (Encode_record v e S). unfold encodeStruct.
    destruct (rootName fs) as [N U].
    destruct (String.eqb N EmptyString); [intros [= <- <-]; now split|].
    destruct (encodeFields fs _) as [[[]|msg] e1]; discriminate.
  - destruct (Encode_unchanged_on_non_record v e S) as [msg ->]. discriminate.
Qed.

Lemma Encode_named (v : interface) (fs : list field) (N U : string)
      (e : DefaultEncoder W) :
  structOf v = Some fs -> rootName fs = (N, U) -> N <> EmptyString ->
  forallb printable (emitted fs) = true ->
  Encode v e
  = (Done None, mkEncoder (writer e) (started (buffer e) ++ rootElement N U fs)).
Proof.
  intros S R NE P. rewrite (Encode_record v e S). unfold encodeStruct. rewrite R.
  destruct (String.eqb_spec N EmptyString) as [E|_]; [contradiction|].
  rewrite (encodeFields_printable _ _ P). cbn [writer buffer].
  unfold rootElement. now rewrite <- !app_assoc.
Qed.

(** With [%v] a pure text, Encode returns nil exactly for a struct (or a
    pointer to one) with a non-empty root name whose emitted fields can all
    be formatted. *)
Lemma Encode_nil_pure (v : interface) (e e' : DefaultEncoder W) :
  Encode v e = (Done None, e')
  <-> exists fs N U,
        structOf v = Some fs /\ rootName fs = (N, U) /\ N <> EmptyString
        /\ forallb printable (emitted fs) = true
        /\ e' = mkEncoder (writer e) (started (buffer e) ++ rootElement N U fs).
Proof.
  split.
  - intros H.
    destruct (structOf v) as [fs|] eqn:S.
    + pose proof H as H'. rewrite (Encode_record v e S) in H'.
      unfold encodeStruct in H'.
      destruct (rootName fs) as [N U] eqn:R.
      destruct (String.eqb_spec N EmptyString) as [E|NE]; [discriminate H'|].
      destruct (encodeFields fs _) as [[[]|msg] e1] eqn:F; [|discriminate H'].
      apply encodeFields_done in F.
      exists fs, N, U. repeat split; try assumption.
      rewrite (Encode_named v e S R NE F) in H. now injection H as <-.
    + destruct (Encode_unchanged_on_non_record v e S) as [msg E].
      rewrite E in H. discriminate.
  - intros (fs & N & U & S & R & NE & P & ->). now apply Encode_named.
Qed.

Lemma printable_direct (l : list field) :
  forallb (fun f => readDirectly (snd f) || negb (IsExported (fst f))) l = true ->
  forallb printable l = forallb (fun f => readDirectly (snd f)) l.
Proof.
  induction l as [|f l IH]; [reflexivity|].
  cbn [forallb]. intros H. apply andb_true_iff in H as [D H].
  rewrite (IH H). f_equal.
  unfold printable. destruct f as [sf x]. cbn [fst snd] in *.
  destruct x; cbn [readDirectly orb] in *; try reflexivity;
    apply negb_true_iff in D; exact D.
Qed.

(** For an argument none of whose fields is handed to [%v], Encode returns
    nil exactly when the argument is a struct (or a pointer to one) with a
    non-empty root name whose emitted fields are all signed integers or
    strings, and then it has appended exactly one complete root block. *)
Theorem Encode_nil_iff (v : interface) (e e' : DefaultEncoder W) :
  avoidsVerbV v = true ->
  (Encode v e = (Done None, e')
   <-> exists fs N U,
         structOf v = Some fs /\ rootName fs = (N, U) /\ N <> EmptyString
         /\ forallb (fun f => readDirectly (snd f)) (emitted fs) = true
         /\ e' = mkEncoder (writer e) (started (buffer e) ++ rootElement N U fs)).
Proof.
  intros A. rewrite Encode_nil_pure. unfold avoidsVerbV in A.
  split; intros (fs & N & U & S & R & NE & P & E); exists fs, N, U;
    rewrite S in A; repeat split; try assumption.
  - now rewrite <- (printable_direct _ A).
  - now rewrite (printable_direct _ A).
Qed.

(** A field that is emitted but cannot be formatted (an unexported field of
    a kind other than signed integer or string) makes Encode panic half-way:
    the buffer keeps the envelope start, the root's opening tag and the
    elements of the fields before it, with no closing tag. *)
Theorem Encode_panics_half_way (v : interface) (pre post : list field)
        (f : field) (N U : string) (e : DefaultEncoder W) :
  structOf v = Some (pre ++ f :: post) ->
  rootName (pre ++ f :: post) = (N, U) -> N <> EmptyString ->
  forallb printable (emitted pre) = true ->
  isXMLName f = false -> omitted f = false -> printable f = false ->
  exists msg,
    Encode v e
    = (Panic msg,
       mkEncoder (writer e)
                 (started (buffer e) ++ bytes (rootStart N U) ++ fieldsXML pre)).
Proof.
  intros S R NE P HX HO HP.
  rewrite (Encode_record v e S). unfold encodeStruct. rewrite R.
  destruct (String.eqb_spec N EmptyString) as [E|_]; [contradiction|].
  match goal with |- context [encodeFields _ ?e0] =>
    destruct (encodeFields_stops pre post f e0 P HX HO HP) as [msg ->] end.
  exists msg. cbn [writer buffer]. now rewrite <- app_assoc.
Qed.

End Outcomes.

(** ** How the XMLName tag is read *)

Section RootTag.

Import reflect.

Context {W : Type} {verbs : fmt.Verbs}.

Lemma Index_byte_step (c a : ascii) (s : string) :
  strings.Index (String a s) (String c EmptyString)
  = if Ascii.eqb a c then Some 0
    else option_map S (strings.Index s (String c EmptyString)).
Proof.
  cbn [strings.Index strings.HasPrefix].
  now rewrite HasPrefix_empty, andb_true_r.
Qed.

Lemma Index_byte_none (c : ascii) (s : string) :
  strings.Index s (String c EmptyString) = None -> countByte c s = 0.
Proof.
  induction s as [|a s IH]; [reflexivity|].
  rewrite Index_byte_step. cbn [countByte].
  destruct (Ascii.eqb a c); [discriminate|].
  destruct (strings.Index s (String c EmptyString)); [discriminate|].
  intros _. now rewrite IH.
Qed.

Lemma Index_byte_some (c : ascii) (s : string) (k : nat) :
  strings.Index s (String c EmptyString) = Some k ->
  countByte c s = S (countByte c (strings.from (k + 1) s)).
Proof.
  revert k. induction s as [|a s IH]; intros k.
  - cbn. discriminate.
  - rewrite Index_byte_step. cbn [countByte].
    destruct (Ascii.eqb a c).
    + intros [= <-]. reflexivity.
    + destruct (strings.Index s (String c EmptyString)) as [j|]; [|discriminate].
      intros [= <-]. cbn [Nat.add strings.from]. now rewrite (IH j eq_refl).
Qed.

(** Splitting on a one-byte separator gives one part more than there are
    separators. *)
Lemma Split_length (c : ascii) (s : string) :
  List.length (strings.Split s (String c EmptyString)) = S (countByte c s).
Proof.
  unfold strings.Split.
  assert (G : forall n s, String.length s <= n ->
              List.length (strings.genSplit n s (String c EmptyString))
              = S (countByte c s)).
  { clear s. induction n as [|n IH]; intros s L.
    - destruct s; [reflexivity | cbn in L; lia].
    - cbn [strings.genSplit].
      destruct (strings.Index s (String c EmptyString)) as [k|] eqn:I.
      + cbn [List.length]. pose proof (Index_bound _ _ I) as B. cbn in B.
        rewrite IH by (rewrite from_length; cbn; lia).
        change (String.length (String c EmptyString)) with 1.
        now rewrite <- (Index_byte_some c s I).
      + cbn. now rewrite (Index_byte_none c s I). }
  now apply G.
Qed.

(** A tag [U N], namespace and local name with a single space between them
    and none inside, is read as root name [N] in namespace [U]. *)
Theorem getXMLNameAndNamespace_of_tag (fs : list field) (sf : StructField)
        (x : GoValue) (U N : string) (ro : bool) :
  find isXMLName fs = Some (sf, x) ->
  xmlTag sf = (U ++ " " ++ N)%string ->
  strings.Contains U " " = false ->
  strings.Contains N " " = false ->
  getXMLNameAndNamespace (mkValue (Some (VStruct fs)) ro) = Done (N, U).
Proof.
  intros F T HU HN.
  rewrite getXMLNameAndNamespace_struct. unfold rootName.
  now rewrite F, T, (Split_namespace_name U N HU HN).
Qed.

(** The tag is used only if it holds exactly one space: with none, or with
    two or more, the root is named after the field, XMLName, with an empty
    namespace. *)
Theorem getXMLNameAndNamespace_fallback (fs : list field) (sf : StructField)
        (x : GoValue) (ro : bool) :
  find isXMLName fs = Some (sf, x) ->
  countByte " " (xmlTag sf) <> 1 ->
  getXMLNameAndNamespace (mkValue (Some (VStruct fs)) ro)
  = Done ("XMLName", EmptyString).
Proof.
  intros F C.
  rewrite getXMLNameAndNamespace_struct. unfold rootName. rewrite F.
  rewrite Split_length.
  destruct (Nat.eqb_spec (S (countByte " " (xmlTag sf))) 2) as [E|_]; [lia|].
  apply find_some in F as [_ F]. unfold isXMLName in F. cbn [fst] in F.
  apply String.eqb_eq in F. now rewrite F.
Qed.

(** A tag that is a namespace followed by a space and nothing else has two
    parts, the second one empty: the record is rejected with the
    MissingRootName error although it has an XMLName field, and the encoder
    is left as it was. *)
Theorem Encode_empty_local_name (v : interface) (fs : list field)
        (sf : StructField) (x : GoValue) (U : string) (e : DefaultEncoder W) :
  structOf v = Some fs ->
  find isXMLName fs = Some (sf, x) ->
  xmlTag sf = (U ++ " ")%string ->
  strings.Contains U " " = false ->
  Encode v e = (Done (Some MissingRootName), e).
Proof.
  intros S F T HU.
  rewrite (Encode_record v e S). unfold encodeStruct, rootName.
  rewrite F, T.
  change (U ++ " ")%string with (U ++ " " ++ EmptyString)%string.
  now rewrite (Split_namespace_name U EmptyString HU eq_refl).
Qed.

End RootTag.

(** ** How a field's tag and path are read *)

Section FieldTag.

Import reflect.

Context {W : Type} {verbs : fmt.Verbs}.

Lemma HasPrefix_app (sub rest : string) :
  strings.HasPrefix (sub ++ rest) sub = true.
Proof.
  induction sub as [|c sub IH]; cbn; [apply HasPrefix_empty|].
  now rewrite Ascii.eqb_refl, IH.
Qed.

Lemma Contains_infix (a sub b : string) :
  strings.Contains (a ++ sub ++ b) sub = true.
Proof.
  unfold strings.Contains.
  enough (exists k, strings.Index (a ++ sub ++ b) sub = Some k) as [k ->]
    by reflexivity.
  induction a as [|c a [k IH]].
  - exists 0. cbn [String.append].
    pose proof (HasPrefix_app sub b) as P.
    destruct (sub ++ b)%string; cbn [strings.Index]; now rewrite P.
  - cbn [String.append strings.Index].
    destruct (strings.HasPrefix _ sub); [now exists 0|].
    rewrite IH. now eexists.
Qed.

(** The omitempty test looks for the word anywhere in the tag, the element
    name included: a zero-valued field whose tag holds it in any position
    is left out, and Encode behaves as on the record without the field. *)
Theorem omitempty_anywhere_in_tag (v v' : interface) (pre post : list field)
        (sf : StructField) (x : GoValue) (a b : string) (e : DefaultEncoder W) :
  structOf v = Some (pre ++ (sf, x) :: post) ->
  structOf v' = Some (pre ++ post) ->
  Name sf <> "XMLName" ->
  xmlTag sf = (a ++ "omitempty" ++ b)%string ->
  isZero x = true ->
  Encode v e = Encode v' e.
Proof.
  intros S S' NX T Z.
  rewrite (Encode_record v e S), (Encode_record v' e S').
  apply encodeStruct_skip.
  - unfold isXMLName. cbn [fst]. now apply String.eqb_neq.
  - unfold omitted. cbn [fst snd]. now rewrite Z, T, Contains_infix.
Qed.

(** A field with no xml key in its tag is still emitted, zero or not, under
    an empty element name. *)
Theorem Encode_untagged_field (v : interface) (pre post : list field)
        (sf : StructField) (x : GoValue) (N U : string) (e : DefaultEncoder W) :
  validRecord v (pre ++ (sf, x) :: post) N U ->
  Name sf <> "XMLName" ->
  xmlTag sf = EmptyString ->
  Encode v e
  = (Done None,
     mkEncoder (writer e)
       (started (buffer e) ++ bytes (rootStart N U)
          ++ fieldsXML pre
          ++ bytes (newline ++ "      <" ++ " xmlns=" ++ quote ++ quote ++ ">"
                            ++ rendered x ++ "</" ++ ">")
          ++ fieldsXML post
          ++ bytes (rootEnd N))).
Proof.
  intros V NX T.
  rewrite (Encode_valid e V). unfold rootElement.
  rewrite fieldsXML_app, fieldsXML_emitted.
  - unfold fieldElement, elementName. cbn [fst snd]. rewrite T.
    cbn [strings.Split String.length strings.genSplit hd String.append].
    now rewrite <- !app_assoc.
  - unfold isXMLName. cbn [fst]. now apply String.eqb_neq.
  - unfold omitted. cbn [fst snd]. rewrite T. apply andb_false_r.
Qed.

Lemma rootName_same_tag (pre post : list field) (sf sf' : StructField)
      (x : GoValue) :
  Name sf' = Name sf -> Tag sf' = Tag sf ->
  rootName (pre ++ (sf', x) :: post) = rootName (pre ++ (sf, x) :: post).
Proof.
  intros HN HT. unfold rootName.
  induction pre as [|p pre IH]; cbn [app find].
  - unfold isXMLName at 1 3. cbn [fst]. rewrite HN.
    destruct (String.eqb (Name sf) "XMLName"); [|reflexivity].
    unfold xmlTag. now rewrite HT, HN.
  - destruct (isXMLName p); [reflexivity | exact IH].
Qed.

(** Signed integers and strings are read without [Interface], so such a
    field is encoded the same whether or not it is exported: the package
    path of the field has no influence on what Encode does. *)
Theorem Encode_ignores_export_of_plain_fields (pre post : list field)
        (sf : StructField) (x : GoValue) (pkg : string) (e : DefaultEncoder W) :
  match x with VSigned _ _ | VString _ => True | _ => False end ->
  Encode (Some (VStruct (pre ++ (mkStructField (Name sf) pkg (Tag sf), x) :: post))) e
  = Encode (Some (VStruct (pre ++ (sf, x) :: post))) e.
Proof.
  intros K. rewrite !Encode_struct. unfold encodeStruct.
  rewrite (rootName_same_tag pre post sf (mkStructField (Name sf) pkg (Tag sf)) x)
    by reflexivity.
  destruct (rootName (pre ++ (sf, x) :: post)) as [N U].
  destruct (String.eqb N EmptyString); [reflexivity|].
  rewrite !encodeFields_app. unfold bind.
  destruct (encodeFields pre _) as [[[]|msg] e1]; [|reflexivity].
  cbn [encodeFields]. unfold bind.
  replace (encodeOne (mkStructField (Name sf) pkg (Tag sf), x) e1)
    with (encodeOne (sf, x) e1); [reflexivity|].
  unfold encodeOne, isXMLName, omitted, elementName, xmlTag, formatField, Kind_,
    Int_, String_of.
  cbn [fst snd Name Tag content].
  destruct x; try contradiction; reflexivity.
Qed.

End FieldTag.

(** ** Sequences of Encode and Flush *)

Section Sequences.

Import reflect.

Context {W : Type} {verbs : fmt.Verbs} {sink : io.Writer W}.

Lemma started_nonempty (buf : list byte) :
  List.length buf <> 0 -> started buf = buf.
Proof.
  unfold started. intros H. apply Nat.eqb_neq in H. now rewrite H.
Qed.

(** Encode leaves the encoder alone or appends to the opened buffer. *)
Lemma Encode_shape (v : interface) (e : DefaultEncoder W) :
  snd (Encode v e) = e
  \/ exists rest, buffer (snd (Encode v e)) = started (buffer e) ++ rest.
Proof.
  destruct (structOf v) as [fs|] eqn:S.
  - rewrite (Encode_record v e S). unfold encodeStruct.
    destruct (rootName fs) as [N U].
    destruct (String.eqb N EmptyString); [now left|]. right.
    match goal with |- context [encodeFields fs ?e0] =>
      destruct (encodeFields_appends fs e0) as [_ [r Hb]];
      destruct (encodeFields fs e0) as [[[]|msg] e1] end;
      cbn [snd buffer] in *; rewrite Hb, <- !app_assoc; now eexists.
  - destruct (Encode_unchanged_on_non_record v e S) as [msg ->]. now left.
Qed.

Lemma step_keeps_envelope (e : DefaultEncoder W) (c : call) :
  (buffer e = [] \/ exists rest, buffer e = bytes SOAPEnvelopeStart ++ rest) ->
  buffer (step e c) = []
  \/ exists rest, buffer (step e c) = bytes SOAPEnvelopeStart ++ rest.
Proof.
  intros I. destruct c as [v|]; cbn [step].
  - destruct (Encode_shape v e) as [->|[r H]]; [exact I|]. right.
    rewrite H. destruct I as [E|[r0 E]].
    + unfold started. rewrite E. now eexists.
    + rewrite started_nonempty by (rewrite E; discriminate).
      rewrite E, <- app_assoc. now eexists.
  - unfold Flush.
    destruct (Nat.ltb_spec 0 (List.length (buffer e))) as [L|_]; [|exact I].
    destruct (io.Write _ _) as [w [n [err|]]]; cbn [snd buffer]; [|now left].
    destruct I as [E|[r0 E]].
    + rewrite E in L. cbn in L. lia.
    + right. rewrite E, <- app_assoc. now eexists.
Qed.

Lemma run_verb_free (verbs' : fmt.Verbs) (calls : list call)
      (e : DefaultEncoder W) :
  forallb callAvoidsVerbV calls = true ->
  @run W verbs' sink calls e = @run W verbs sink calls e.
Proof.
  unfold run. revert e.
  induction calls as [|c calls IH]; intros e A; [reflexivity|].
  cbn [forallb] in A. apply andb_true_iff in A as [Ac A].
  cbn [fold_left].
  replace (@step W verbs' sink e c) with (@step W verbs sink e c);
    [now apply IH|].
  destruct c as [v|]; cbn [step callAvoidsVerbV] in *; [|reflexivity].
  now rewrite (@Encode_verb_free W verbs verbs' v e Ac).
Qed.

(** Whatever calls are made on a new encoder, in whatever order and with
    whatever outcomes, as long as no Encode is given an argument with a
    field that is handed to [%v]: the encoder reached is the same under
    every [%v], and its buffer is either empty or begins with the envelope
    start. *)
Theorem buffer_begins_with_envelope (calls : list call) (w : W) :
  forallb callAvoidsVerbV calls = true ->
  (forall verbs' : fmt.Verbs,
      @run W verbs' sink calls (NewEncoder w) = @run W verbs sink calls (NewEncoder w))
  /\ (buffer (run calls (NewEncoder w)) = []
      \/ exists rest,
           buffer (run calls (NewEncoder w)) = bytes SOAPEnvelopeStart ++ rest).
Proof.
  intros A. split; [intros verbs'; now apply run_verb_free|]. clear A. unfold run.
  assert (I : buffer (NewEncoder w) = []
              \/ exists rest, buffer (NewEncoder w) = bytes SOAPEnvelopeStart ++ rest)
    by now left.
  revert I. generalize (NewEncoder w).
  induction calls as [|c calls IH]; intros e I; [exact I|].
  cbn [fold_left]. apply IH. now apply step_keeps_envelope.
Qed.

Lemma run_encodes (rs : list described) (e : DefaultEncoder W) :
  Forall (fun d => validRecord (d_value d) (d_fields d) (d_name d) (d_space d)) rs ->
  rs <> [] ->
  run (map (fun d => CallEncode (d_value d)) rs) e
  = mkEncoder (writer e) (started (buffer e) ++ concat (map d_block rs)).
Proof.
  intros V. revert e.
  induction V as [|d rs Vd V IH]; intros e NE; [contradiction|].
  unfold run in *. cbn [map fold_left step].
  rewrite (Encode_valid e Vd). cbn [snd].
  destruct rs as [|d' rs].
  - cbn [map fold_left concat]. unfold d_block. now rewrite app_nil_r.
  - rewrite IH by discriminate. cbn [writer buffer].
    rewrite started_nonempty.
    + cbn [map concat]. unfold d_block at 3. now rewrite <- app_assoc.
    + rewrite length_app. pose proof (started_length (buffer e)). lia.
Qed.

(** Any number of valid records encoded one after the other end up as
    their root blocks in call order behind a single envelope start, and the
    Flush that follows hands them to the sink in one write. *)
Theorem Encode_many_then_Flush (rs : list described) (e : DefaultEncoder W) :
  Forall (fun d => validRecord (d_value d) (d_fields d) (d_name d) (d_space d)) rs ->
  rs <> [] ->
  let e' := run (map (fun d => CallEncode (d_value d)) rs) e in
  let output := started (buffer e) ++ concat (map d_block rs) ++ envelopeEnd in
  e' = mkEncoder (writer e) (started (buffer e) ++ concat (map d_block rs))
  /\ Flush e'
     = (let '(w, (_, err)) := io.Write (writer e) output in
        match err with
        | Some err => (Done (Some err), mkEncoder w output)
        | None => (Done None, mkEncoder w [])
        end).
Proof.
  intros V NE e' output. subst e'. rewrite (run_encodes e V NE).
  split; [reflexivity|].
  rewrite Flush_pending.
  - cbn [writer buffer]. subst output. cbv zeta. now rewrite <- app_assoc.
  - cbn [buffer]. rewrite length_app. pose proof (started_length (buffer e)). lia.
Qed.

(** After a Flush that succeeded the encoder starts over: the next record
    opens a new envelope, and nothing of the first record is written
    again. *)
Theorem Encode_after_Flush_starts_over (a b : interface) (fsA fsB : list field)
        (NA UA NB UB : string) (e : DefaultEncoder W) (w1 : W) (n : Z) :
  validRecord a fsA NA UA ->
  validRecord b fsB NB UB ->
  buffer e = [] ->
  io.Write (writer e)
           (bytes SOAPEnvelopeStart ++ rootElement NA UA fsA ++ envelopeEnd)
  = (w1, (n, None)) ->
  let e' := run [CallEncode a; CallFlush; CallEncode b] e in
  let output := bytes SOAPEnvelopeStart ++ rootElement NB UB fsB ++ envelopeEnd in
  e' = mkEncoder w1 (bytes SOAPEnvelopeStart ++ rootElement NB UB fsB)
  /\ Flush e'
     = (let '(w, (_, err)) := io.Write w1 output in
        match err with
        | Some err => (Done (Some err), mkEncoder w output)
        | None => (Done None, mkEncoder w [])
        end).
Proof.
  intros VA VB B Wr e' output.
  assert (E : e' = mkEncoder w1 (bytes SOAPEnvelopeStart ++ rootElement NB UB fsB)).
  { subst e'. unfold run. cbn [fold_left step].
    rewrite (Encode_valid e VA). cbn [snd].
    rewrite Flush_pending
      by (cbn [buffer]; rewrite length_app; pose proof (started_length (buffer e)); lia).
    cbn [writer buffer]. cbv zeta. unfold started at 1. rewrite B.
    cbn [List.length Nat.eqb]. rewrite <- app_assoc, Wr. cbn [snd].
    now rewrite (Encode_valid _ VB). }
  split; [exact E|]. rewrite E.
  rewrite Flush_pending.
  - cbn [writer buffer]. subst output. cbv zeta. now rewrite <- app_assoc.
  - cbn [buffer]. rewrite length_app. discriminate.
Qed.

(** After a Flush whose write failed, the next record is appended behind
    the envelope end that the failed Flush left in the buffer, and the
    following Flush hands the sink the old content, the envelope end, the
    new root block and the envelope end again. *)
Theorem Encode_after_failed_Flush (b : interface) (fsB : list field)
        (NB UB : string) (e : DefaultEncoder W) (w1 : W) (n : Z) (err : error) :
  validRecord b fsB NB UB ->
  List.length (buffer e) <> 0 ->
  io.Write (writer e) (buffer e ++ envelopeEnd) = (w1, (n, Some err)) ->
  let e' := run [CallFlush; CallEncode b] e in
  let output := buffer e ++ envelopeEnd ++ rootElement NB UB fsB ++ envelopeEnd in
  e' = mkEncoder w1 (buffer e ++ envelopeEnd ++ rootElement NB UB fsB)
  /\ Flush e'
     = (let '(w, (_, err2)) := io.Write w1 output in
        match err2 with
        | Some err2 => (Done (Some err2), mkEncoder w output)
        | None => (Done None, mkEncoder w [])
        end).
Proof.
  intros VB L Wr e' output.
  assert (E : e' = mkEncoder w1 (buffer e ++ envelopeEnd ++ rootElement NB UB fsB)).
  { subst e'. unfold run. cbn [fold_left step].
    rewrite (Flush_pending e L). cbv zeta. rewrite Wr. cbn [snd].
    rewrite (Encode_valid _ VB). cbn [snd writer buffer].
    rewrite started_nonempty by (rewrite length_app; lia).
    now rewrite <- app_assoc. }
  split; [exact E|]. rewrite E.
  rewrite Flush_pending.
  - cbn [writer buffer]. subst output. cbv zeta. now rewrite <- !app_assoc.
  - cbn [buffer]. rewrite length_app. lia.
Qed.

End Sequences.

(** ** The further theorems at concrete records and sinks *)

Lemma Encode_error_is_MissingRootName_witness :
  let e := mkEncoder (mkPipe [] []) (bytes SOAPEnvelopeStart) in
  Encode (Some anonymous) e = (Done (Some MissingRootName), e)
  /\ (MissingRootName = MissingRootName /\ e = e).
Proof.
  intros e. split; [reflexivity|].
  apply (@Encode_error_is_MissingRootName Pipe plainVerbs (Some anonymous) e e).
  reflexivity.
Defined.

Lemma Encode_only_appends_witness :
  let v := Some (guarded "Alice" true) in
  let e := mkEncoder (mkPipe [] []) (bytes SOAPEnvelopeStart) in
  (forall verbs' : fmt.Verbs, @Encode Pipe verbs' v e = @Encode Pipe plainVerbs v e)
  /\ writer (snd (Encode v e)) = writer e
  /\ exists rest, buffer (snd (Encode v e)) = buffer e ++ rest.
Proof.
  intros v e.
  apply (@Encode_only_appends Pipe plainVerbs v e). reflexivity.
Defined.

Lemma Encode_nil_iff_witness :
  exists fs N U,
    structOf (Some (person "Alice" 30)) = Some fs
    /\ rootName fs = (N, U) /\ N <> EmptyString
    /\ forallb (fun f => readDirectly (snd f)) (emitted fs) = true
    /\ snd (Encode (Some (person "Alice" 30)) (NewEncoder (mkPipe [] [])))
       = mkEncoder (mkPipe [] []) (started [] ++ rootElement N U fs).
Proof.
  apply (proj1 (@Encode_nil_iff Pipe plainVerbs (Some (person "Alice" 30))
                  (NewEncoder (mkPipe [] [])) _ eq_refl)).
  reflexivity.
Defined.

Lemma buffer_begins_with_envelope_witness :
  let calls := [ CallEncode (Some (person "Alice" 30));
                 CallEncode (Some (guarded "Bob" false));
                 CallEncode None;
                 CallFlush;
                 CallEncode (Some anonymous);
                 CallEncode (Some (person "Carol" 0)) ] in
  let w := mkPipe [Some "broken pipe"] [] in
  (forall verbs' : fmt.Verbs,
      @run Pipe verbs' Pipe_Writer calls (NewEncoder w)
      = @run Pipe plainVerbs Pipe_Writer calls (NewEncoder w))
  /\ (buffer (run calls (NewEncoder w)) = []
      \/ exists rest,
           buffer (run calls (NewEncoder w)) = bytes SOAPEnvelopeStart ++ rest).
Proof.
  intros calls w.
  apply (@buffer_begins_with_envelope Pipe plainVerbs Pipe_Writer calls). reflexivity.
Defined.

Lemma Encode_panics_half_way_witness :
  exists msg,
    Encode (Some (guarded "Alice" true)) (NewEncoder (mkPipe [] []))
    = (Panic msg,
       mkEncoder (mkPipe [] [])
         (started [] ++ bytes (rootStart "Person" "urn:example")
            ++ fieldsXML [ (exported "XMLName" "urn:example Person", xmlName);
                           (exported "Name" "Name", reflect.VString "Alice") ])).
Proof.
  apply (@Encode_panics_half_way Pipe plainVerbs (Some (guarded "Alice" true))
           [ (exported "XMLName" "urn:example Person", xmlName);
             (exported "Name" "Name", reflect.VString "Alice") ]
           [ (exported "Age" "Age", reflect.VSigned reflect.Int 30) ]
           (unexported "ok" "ok", reflect.VOther reflect.Bool false)
           "Person" "urn:example" (NewEncoder (mkPipe [] [])));
    try reflexivity.
  discriminate.
Defined.

Lemma getXMLNameAndNamespace_of_tag_witness :
  getXMLNameAndNamespace
    (reflect.mkValue (Some (person "Alice" 30)) false)
  = Done ("Person", "urn:example").
Proof.
  apply (@getXMLNameAndNamespace_of_tag _
           (exported "XMLName" "urn:example Person") xmlName
           "urn:example" "Person" false); reflexivity.
Defined.

Lemma getXMLNameAndNamespace_fallback_witness :
  getXMLNameAndNamespace
    (reflect.mkValue
       (Some (reflect.VStruct
                [ (exported "XMLName" "urn:example Person v2", xmlName);
                  (exported "Name" "Name", reflect.VString "Alice") ])) false)
  = Done ("XMLName", EmptyString).
Proof.
  apply (@getXMLNameAndNamespace_fallback _
           (exported "XMLName" "urn:example Person v2") xmlName false).
  - reflexivity.
  - vm_compute. discriminate.
Defined.

Lemma Encode_empty_local_name_witness :
  let v := Some (reflect.VStruct
                   [ (exported "XMLName" "urn:example ", xmlName);
                     (exported "Name" "Name", reflect.VString "Alice") ]) in
  Encode v (NewEncoder (mkPipe [] []))
  = (Done (Some MissingRootName), NewEncoder (mkPipe [] [])).
Proof.
  intros v.
  apply (@Encode_empty_local_name Pipe plainVerbs v
           [ (exported "XMLName" "urn:example ", xmlName);
             (exported "Name" "Name", reflect.VString "Alice") ]
           (exported "XMLName" "urn:example ") xmlName "urn:example");
    reflexivity.
Defined.

Lemma omitempty_anywhere_in_tag_witness :
  let root := (exported "XMLName" "urn:example Person", xmlName) in
  let count := (exported "Count" "omitemptyCount", reflect.VSigned reflect.Int 0) in
  let e := NewEncoder (mkPipe [] []) in
  Encode (Some (reflect.VStruct [root; count])) e
  = Encode (Some (reflect.VStruct [root])) e.
Proof.
  intros root count e.
  apply (@omitempty_anywhere_in_tag Pipe plainVerbs _ _ [root] []
           (exported "Count" "omitemptyCount") (reflect.VSigned reflect.Int 0)
           EmptyString "Count" e); try reflexivity.
  discriminate.
Defined.

Lemma Encode_untagged_field_witness :
  let root := (exported "XMLName" "urn:example Person", xmlName) in
  let note := reflect.mkStructField "Note" EmptyString [("json", "note")] in
  let e := NewEncoder (mkPipe [] []) in
  Encode (Some (reflect.VStruct [root; (note, reflect.VString EmptyString)])) e
  = (Done None,
     mkEncoder (mkPipe [] [])
       (started [] ++ bytes (rootStart "Person" "urn:example")
          ++ fieldsXML [root]
          ++ bytes (newline ++ "      <" ++ " xmlns=" ++ quote ++ quote ++ ">"
                            ++ EmptyString ++ "</" ++ ">")
          ++ fieldsXML []
          ++ bytes (rootEnd "Person"))).
Proof.
  intros root note e.
  apply (@Encode_untagged_field Pipe plainVerbs _ [root] [] note
           (reflect.VString EmptyString) "Person" "urn:example" e).
  - valid_record.
  - discriminate.
  - reflexivity.
Defined.

Lemma Encode_ignores_export_of_plain_fields_witness :
  let root := (exported "XMLName" "urn:example Person", xmlName) in
  let e := NewEncoder (mkPipe [] []) in
  Encode (Some (reflect.VStruct
                  [root; (unexported "name" "Name", reflect.VString "Alice")])) e
  = Encode (Some (reflect.VStruct
                    [root; (exported "name" "Name", reflect.VString "Alice")])) e.
Proof.
  intros root e.
  apply (@Encode_ignores_export_of_plain_fields Pipe plainVerbs [root] []
           (exported "name" "Name") (reflect.VString "Alice") "main" e).
  exact I.
Defined.

Lemma Encode_many_then_Flush_witness :
  let fs (name : string) (age : Z) :=
    [ (exported "XMLName" "urn:example Person", xmlName);
      (exported "Name" "Name", reflect.VString name);
      (exported "Age" "Age,omitempty", reflect.VSigned reflect.Int age) ] in
  let d (name : string) (age : Z) :=
    mkDescribed (Some (person name age)) (fs name age) "Person" "urn:example" in
  let rs := [d "Alice" 30%Z; d "Bob" 0%Z; d "Carol" (-1)%Z] in
  let e' := run (map (fun d => CallEncode (d_value d)) rs) (NewEncoder (mkPipe [] [])) in
  let output := bytes SOAPEnvelopeStart ++ concat (map d_block rs) ++ envelopeEnd in
  e' = mkEncoder (mkPipe [] []) (bytes SOAPEnvelopeStart ++ concat (map d_block rs))
  /\ Flush e' = (Done None, mkEncoder (mkPipe [] [output]) []).
Proof.
  intros fs d rs e' output.
  apply (@Encode_many_then_Flush Pipe plainVerbs Pipe_Writer rs
           (NewEncoder (mkPipe [] []))).
  - repeat (apply Forall_cons; [apply person_valid|]). apply Forall_nil.
  - discriminate.
Defined.

Lemma Encode_after_Flush_starts_over_witness :
  let fs (name : string) (age : Z) :=
    [ (exported "XMLName" "urn:example Person", xmlName);
      (exported "Name" "Name", reflect.VString name);
      (exported "Age" "Age,omitempty", reflect.VSigned reflect.Int age) ] in
  let A := rootElement "Person" "urn:example" (fs "Alice" 30%Z) in
  let B := rootElement "Person" "urn:example" (fs "Bob" 0%Z) in
  let first := bytes SOAPEnvelopeStart ++ A ++ envelopeEnd in
  let second := bytes SOAPEnvelopeStart ++ B ++ envelopeEnd in
  let e' := run [CallEncode (Some (person "Alice" 30)); CallFlush;
                 CallEncode (Some (person "Bob" 0))]
                (NewEncoder (mkPipe [] [])) in
  e' = mkEncoder (mkPipe [] [first]) (bytes SOAPEnvelopeStart ++ B)
  /\ Flush e' = (Done None, mkEncoder (mkPipe [] [first; second]) []).
Proof.
  intros fs A B first second e'.
  apply (@Encode_after_Flush_starts_over Pipe plainVerbs Pipe_Writer
           (Some (person "Alice" 30)) (Some (person "Bob" 0))
           (fs "Alice" 30%Z) (fs "Bob" 0%Z)
           "Person" "urn:example" "Person" "urn:example"
           (NewEncoder (mkPipe [] [])) (mkPipe [] [first])
           (Z.of_nat (List.length first))).
  - apply person_valid.
  - apply person_valid.
  - reflexivity.
  - reflexivity.
Defined.

Lemma Encode_after_failed_Flush_witness :
  let fs := [ (exported "XMLName" "urn:example Person", xmlName);
              (exported "Name" "Name", reflect.VString "Bob");
              (exported "Age" "Age,omitempty", reflect.VSigned reflect.Int 0) ] in
  let B := rootElement "Person" "urn:example" fs in
  let pending := bytes SOAPEnvelopeStart in
  let e := mkEncoder (mkPipe [Some "broken pipe"] []) pending in
  let e' := run [CallFlush; CallEncode (Some (person "Bob" 0))] e in
  let output := pending ++ envelopeEnd ++ B ++ envelopeEnd in
  e' = mkEncoder (mkPipe [] [pending ++ envelopeEnd]) (pending ++ envelopeEnd ++ B)
  /\ Flush e'
     = (Done None, mkEncoder (mkPipe [] [pending ++ envelopeEnd; output]) []).
Proof.
  intros fs B pending e e' output.
  apply (@Encode_after_failed_Flush Pipe plainVerbs Pipe_Writer
           (Some (person "Bob" 0)) fs "Person" "urn:example" e
           (mkPipe [] [pending ++ envelopeEnd]) 0%Z "broken pipe").
  - apply person_valid.
  - vm_compute. discriminate.
  - reflexivity.
Defined.

(** ** The sink's errors, and the modifiers of a tag *)

Section SinkErrors.

Context {W : Type} {sink : io.Writer W}.

(** An error returned by Flush is the sink's own: there was content to
    write, the one Write of that content and the envelope end failed with
    that very error, and all of it is still in the buffer. *)
Theorem Flush_error_is_the_sinks (e e' : DefaultEncoder W) (err : error) :
  Flush e = (Done (Some err), e') ->
  List.length (buffer e) <> 0
  /\ buffer e' = buffer e ++ envelopeEnd
  /\ exists n, io.Write (writer e) (buffer e ++ envelopeEnd)
               = (writer e', (n, Some err)).
Proof.
  unfold Flush.
  destruct (Nat.ltb_spec 0 (List.length (buffer e))) as [L|L]; [|discriminate].
  fold envelopeEnd.
  destruct (io.Write (writer e) (buffer e ++ envelopeEnd)) as [w [n [err'|]]];
    [|discriminate].
  intros [= <- <-]. cbn [buffer writer].
  split; [lia|]. split; [reflexivity | now exists n].
Qed.

End SinkErrors.

Section Modifiers.

Import reflect.

Context {W : Type} {verbs : fmt.Verbs}.

Lemma Split_head (c : ascii) (name suffix : string) :
  strings.Contains name (String c EmptyString) = false ->
  suffix = EmptyString \/ (exists mods, suffix = String c mods) ->
  hd EmptyString (strings.Split (name ++ suffix) (String c EmptyString)) = name.
Proof.
  unfold strings.Contains, strings.Split. intros C S.
  destruct (strings.Index name (String c EmptyString)) eqn:I; [discriminate|].
  destruct S as [->|[mods ->]].
  - replace (name ++ EmptyString)%string with name
      by (clear; induction name; cbn; congruence).
    destruct (String.length name); cbn [strings.genSplit]; [reflexivity|].
    now rewrite I.
  - destruct (String.length (name ++ String c mods)) as [|n] eqn:L.
    + exfalso. pose proof (Index_bound _ _ (Index_separator c name mods I)) as B.
      cbn in B. lia.
    + cbn [strings.genSplit]. rewrite (Index_separator c name mods I).
      cbn [hd]. apply substring_prefix.
Qed.

(** The element is named by what stands before the first comma of the tag:
    modifiers after it never reach the output. *)
Theorem Encode_names_element_before_comma (v : interface)
        (pre post : list field) (sf : StructField) (x : GoValue)
        (name suffix N U : string) (e : DefaultEncoder W) :
  validRecord v (pre ++ (sf, x) :: post) N U ->
  Name sf <> "XMLName" ->
  xmlTag sf = (name ++ suffix)%string ->
  strings.Contains name "," = false ->
  suffix = EmptyString \/ (exists mods, suffix = String "," mods) ->
  omitted (sf, x) = false ->
  Encode v e
  = (Done None,
     mkEncoder (writer e)
       (started (buffer e) ++ bytes (rootStart N U)
          ++ fieldsXML pre
          ++ bytes (newline ++ "      <" ++ name ++ " xmlns=" ++ quote ++ quote ++ ">"
                            ++ rendered x ++ "</" ++ name ++ ">")
          ++ fieldsXML post
          ++ bytes (rootEnd N))).
Proof.
  intros V NX T C S O.
  rewrite (Encode_valid e V). unfold rootElement.
  rewrite fieldsXML_app, fieldsXML_emitted.
  - unfold fieldElement, elementName. cbn [fst snd]. rewrite T.
    rewrite (@Split_head "," name suffix C S).
    now rewrite <- !app_assoc.
  - unfold isXMLName. cbn [fst]. now apply String.eqb_neq.
  - exact O.
Qed.

End Modifiers.

Lemma Flush_error_is_the_sinks_witness :
  let e := mkEncoder (mkPipe [Some "broken pipe"] []) (bytes SOAPEnvelopeStart) in
  let e' := mkEncoder (mkPipe [] [bytes SOAPEnvelopeStart ++ envelopeEnd])
                      (bytes SOAPEnvelopeStart ++ envelopeEnd) in
  List.length (buffer e) <> 0
  /\ buffer e' = buffer e ++ envelopeEnd
  /\ exists n, io.Write (writer e) (buffer e ++ envelopeEnd)
               = (writer e', (n, Some "broken pipe")).
Proof.
  intros e e'.
  apply (@Flush_error_is_the_sinks Pipe Pipe_Writer e e' "broken pipe").
  reflexivity.
Defined.

Lemma Encode_names_element_before_comma_witness :
  let root := (exported "XMLName" "urn:example Person", xmlName) in
  let name := (exported "Name" "Name", reflect.VString "Alice") in
  let age := (exported "Age" "Age,omitempty", reflect.VSigned reflect.Int 30) in
  Encode (Some (person "Alice" 30)) (NewEncoder (mkPipe [] []))
  = (Done None,
     mkEncoder (mkPipe [] [])
       (started [] ++ bytes (rootStart "Person" "urn:example")
          ++ fieldsXML [root; name]
          ++ bytes (newline ++ "      <" ++ "Age" ++ " xmlns=" ++ quote ++ quote ++ ">"
                            ++ rendered (reflect.VSigned reflect.Int 30)
                            ++ "</" ++ "Age" ++ ">")
          ++ fieldsXML []
          ++ bytes (rootEnd "Person"))).
Proof.
  intros root name age.
  apply (@Encode_names_element_before_comma Pipe plainVerbs
           (Some (person "Alice" 30)) [root; name] []
           (exported "Age" "Age,omitempty") (reflect.VSigned reflect.Int 30)
           "Age" ",omitempty" "Person" "urn:example" (NewEncoder (mkPipe [] []))).
  - apply person_valid.
  - discriminate.
  - reflexivity.
  - reflexivity.
  - right. now exists "omitempty".
  - reflexivity.
Defined.
